(** * Order history screen: fetch, normalise, filter, and image URL resolution

    Shallow embedding of [src/Screen1/Shopping/EnhancedMyOrders.tsx] (the
    active component, lines 44-311) and of the backend locator
    [src/util/backendConfig] (lines 1504-1570, after the component).

    Conventions.
    - A JavaScript string is a Rocq [string]; each [ascii] stands for the
      code unit of the same number (U+0000 .. U+00FF).  [toLowerCase] and the
      regular-expression class [\s] are written out for that range.
    - A JSON value received from the wire is a [JsVal]; an object is the list
      of its own properties in property order.
    - [async] code is split at the one [await] that can stay pending for long
      (the network call); exceptions are the left summand of [Exc]. *)

From Stdlib Require Import String Ascii List Bool Arith Lia DecimalString.
Import ListNotations.
Set Warnings "-register-all".
Open Scope string_scope.

(* ================================================================== *)
(** ** Strings as the code uses them *)

Module Str.

(** What is left of [s] after its prefix [p], when [s] starts with [p]. *)
Fixpoint strip_prefix (p s : string) : option string :=
  match p with
  | EmptyString => Some s
  | String a p' =>
      match s with
      | EmptyString => None
      | String b s' => if Ascii.eqb a b then strip_prefix p' s' else None
      end
  end.

(** [s.startsWith(p)] *)
Definition startsWith (p s : string) : bool :=
  match strip_prefix p s with
  | Some _ => true
  | None => false
  end.

(** [s.includes(p)]: [p] occurs at some position of [s]. *)
Fixpoint includes (p s : string) : bool :=
  startsWith p s ||
  match s with
  | EmptyString => false
  | String _ rest => includes p rest
  end.

(** Character classes. *)
Definition code (c : ascii) : nat := nat_of_ascii c.

(** [\s] restricted to U+0000..U+00FF: TAB, LF, VT, FF, CR, SPACE, NBSP. *)
Definition is_space (c : ascii) : bool :=
  let n := code c in
  (((9 <=? n) && (n <=? 13)) || (n =? 32) || (n =? 160))%nat.

(** [toLowerCase] on one code unit of U+0000..U+00FF: A-Z, and the Latin-1
    capitals U+00C0..U+00DE except the multiplication sign U+00D7. *)
Definition lower_char (c : ascii) : ascii :=
  let n := code c in
  if (((65 <=? n) && (n <=? 90))
      || ((192 <=? n) && (n <=? 222) && negb (n =? 215)))%nat
  then ascii_of_nat (n + 32)
  else c.

Fixpoint toLowerCase (s : string) : string :=
  match s with
  | EmptyString => EmptyString
  | String c rest => String (lower_char c) (toLowerCase rest)
  end.

(** [s.replace(/\s+/g, '_')]: a left-to-right scan; [in_run] tells that the
    previous character belonged to the whitespace run already replaced. *)
Fixpoint replace_ws_go (in_run : bool) (s : string) : string :=
  match s with
  | EmptyString => EmptyString
  | String c rest =>
      if is_space c
      then if in_run
           then replace_ws_go true rest
           else String "_" (replace_ws_go true rest)
      else String c (replace_ws_go false rest)
  end.

Definition replace_ws_runs (s : string) : string := replace_ws_go false s.

(** Every character of [s] satisfies [p]. *)
Fixpoint all_chars (p : ascii -> bool) (s : string) : bool :=
  match s with
  | EmptyString => true
  | String c rest => p c && all_chars p rest
  end.

(** First character, if any. *)
Definition head (s : string) : option ascii :=
  match s with
  | EmptyString => None
  | String c _ => Some c
  end.

(** Last character, if any. *)
Fixpoint last (s : string) : option ascii :=
  match s with
  | EmptyString => None
  | String c EmptyString => Some c
  | String _ rest => last rest
  end.

Definition not_space_opt (o : option ascii) : bool :=
  match o with
  | None => true
  | Some c => negb (is_space c)
  end.

(** State of the scan of [replace_ws_go] after the prefix [a]. *)
Definition run_after (in_run : bool) (a : string) : bool :=
  match last a with
  | None => in_run
  | Some c => is_space c
  end.

(** Code units of the ASCII range. *)
Definition is_ascii (c : ascii) : bool := (code c <? 128)%nat.

(** A character that [toLowerCase] changes. *)
Definition is_upper (c : ascii) : bool := negb (Ascii.eqb (lower_char c) c).

(** [toUpperCase] on one code unit of U+0000..U+00FF: a-z and the Latin-1
    small letters U+00E0..U+00FE except the division sign U+00F7 move down by
    32; the sharp s U+00DF becomes "SS".  The capitals of U+00B5 and U+00FF
    lie beyond U+00FF and cannot be written here: these two are left as they
    are, and what is proved about [toUpperCase] is stated for ASCII. *)
Definition upper_units (c : ascii) : string :=
  let n := code c in
  if (n =? 223)%nat then "SS"
  else if (((97 <=? n) && (n <=? 122))
           || ((224 <=? n) && (n <=? 254) && negb (n =? 247)))%nat
       then String (ascii_of_nat (n - 32)) EmptyString
       else String c EmptyString.

Fixpoint toUpperCase (s : string) : string :=
  match s with
  | EmptyString => EmptyString
  | String c rest => upper_units c ++ toUpperCase rest
  end.

(** [s.replace(/_/g, ' ')] *)
Fixpoint replace_underscores (s : string) : string :=
  match s with
  | EmptyString => EmptyString
  | String c rest =>
      String (if Ascii.eqb c "_" then " "%char else c) (replace_underscores rest)
  end.

(** A status code as the backend writes them: ASCII, no capital, no
    whitespace, no two underscores in a row ([after_underscore] tells that
    the previous character was one). *)
Fixpoint plain_code (after_underscore : bool) (s : string) : bool :=
  match s with
  | EmptyString => true
  | String c rest =>
      is_ascii c && negb (is_space c) && negb (is_upper c)
      && negb (after_underscore && Ascii.eqb c "_")
      && plain_code (Ascii.eqb c "_") rest
  end.

End Str.

(* ================================================================== *)
(** ** JSON values and JavaScript property access *)

(** A number literal of the wire format, [mantissa * 10 ^ exponent]. *)
Record JsNumber := mkNum { mantissa : nat; negative : bool; exponent10 : nat; exp_negative : bool }.

Inductive JsVal : Type :=
| JUndefined
| JNull
| JBool (b : bool)
| JNum (n : JsNumber)
| JStr (s : string)
| JArr (items : list JsVal)
| JObj (fields : list (string * JsVal)).

(** A JavaScript object: its own properties. *)
Definition JsObject := list (string * JsVal).

(** Exceptions that the modelled code can see. *)
Inductive JsError : Type :=
| Error (message : string)        (* [new Error(message)] *)
| TypeError                       (* property access on null/undefined, call of a non-function *)
| SyntaxError                     (* [JSON.parse] *)
| Rejected (message : string).    (* a rejected promise of a collaborator *)

Definition Exc (A : Type) : Type := (JsError + A)%type.

Definition ret {A} (a : A) : Exc A := inr a.
Definition throw {A} (e : JsError) : Exc A := inl e.
Definition bind {A B} (m : Exc A) (k : A -> Exc B) : Exc B :=
  match m with
  | inl e => inl e
  | inr a => k a
  end.

Declare Scope exc_scope.
Delimit Scope exc_scope with exc.
Notation "x <- m ;; k" := (bind m (fun x => k))
  (at level 61, m at next level, right associativity) : exc_scope.

(** ToBoolean. *)
Definition truthy (v : JsVal) : bool :=
  match v with
  | JUndefined | JNull => false
  | JBool b => b
  | JNum n => negb (mantissa n =? 0)%nat
  | JStr s => negb (String.eqb s "")
  | JArr _ | JObj _ => true
  end.

(** [a || b] *)
Definition js_or (a b : JsVal) : JsVal := if truthy a then a else b.

(** Own property of an object; a missing property reads [undefined]. *)
Fixpoint get_field (o : JsObject) (k : string) : JsVal :=
  match o with
  | [] => JUndefined
  | (k', v) :: rest => if String.eqb k' k then v else get_field rest k
  end.

(** [{...o, k: v}] : the property keeps its place when [o] has it and is
    appended otherwise. *)
Fixpoint set_field (o : JsObject) (k : string) (v : JsVal) : JsObject :=
  match o with
  | [] => [(k, v)]
  | (k', v') :: rest =>
      if String.eqb k' k then (k', v) :: rest else (k', v') :: set_field rest k v
  end.

(** [v.k] for a key [k] that no prototype defines ([_id], [id], [success],
    [data], [products], [status]): null and undefined throw, an object is
    looked up, every other value reads [undefined]. *)
Definition get_prop (v : JsVal) (k : string) : Exc JsVal :=
  match v with
  | JUndefined | JNull => throw TypeError
  | JObj o => ret (get_field o k)
  | _ => ret JUndefined
  end.

(** [a === s] for a string [s]. *)
Definition strict_eq_str (a : JsVal) (s : string) : bool :=
  match a with
  | JStr t => String.eqb t s
  | _ => false
  end.

(* ================================================================== *)
(** ** Filter engine (lines 49-51 and 106-111) *)

(** An element of the [orders] state: always an object, see [normalizeOrder]. *)
Definition Order := JsObject.

Definition orderFilters : list string :=
  ["All"; "Order Confirmed"; "Processing"; "Shipped"; "Out for Delivery";
   "Delivered"; "Cancelled"].

(** [useState('all')] *)
Definition initialSelectedFilter : string := "all".

(** [selectedFilter.toLowerCase().replace(/\s+/g, '_')] *)
Definition statusOfFilter (selectedFilter : string) : string :=
  Str.replace_ws_runs (Str.toLowerCase selectedFilter).

Definition filteredOrders (orders : list Order) (selectedFilter : string) : list Order :=
  if String.eqb selectedFilter "All"
  then orders
  else filter (fun order =>
                 let status := statusOfFilter selectedFilter in
                 strict_eq_str (get_field order "status") status)
              orders.

(** The spec's wording of the same selection, used to compare. *)
Definition has_status (code : string) (order : Order) : Prop :=
  get_field order "status" = JStr code.

(** [l1] is a subsequence of [l2]: same elements in the same relative order. *)
Inductive subseq {A} : list A -> list A -> Prop :=
| subseq_nil : subseq [] []
| subseq_skip x l1 l2 : subseq l1 l2 -> subseq l1 (x :: l2)
| subseq_keep x l1 l2 : subseq l1 l2 -> subseq (x :: l1) (x :: l2).

(* ================================================================== *)
(** ** Backend locator (lines 1504-1510) *)

Definition API_BASE_URL : string := "https://dummy-bac.onrender.com".

Definition getBackendUrl : string := API_BASE_URL.

(* ================================================================== *)
(** ** Order fetcher (lines 62-98) *)

(** The GET request of line 75.  The URL is
    [url_prefix ++ ToString(url_customer)]; the interpolated value is kept as
    it is, and the header is [Authorization: authorization]. *)
Record Request := mkRequest {
  url_prefix : string;
  url_customer : JsVal;
  authorization : string
}.

(** What the body of [fetchOrders] does to the outside, in program order. *)
Inductive Effect : Type :=
| AxiosGet (req : Request)
| SetOrders (l : list Order)
| SetLoading (b : bool)
| SetRefreshing (b : bool)
| ConsoleLog (message : string) (n : nat)
| ConsoleError (message : string) (e : JsError)
| AlertAlert (title message : string).

(** The collaborators: the credential store, [JSON.parse] and the network. *)
Record Env := mkEnv {
  getItem : string -> Exc (option string);
  JSON_parse : string -> Exc JsVal;
  axios_get : Request -> Exc JsVal      (* [response.data], or a rejection *)
}.

(** ToBoolean of a [string | null]. *)
Definition truthy_item (v : option string) : bool :=
  match v with
  | None => false
  | Some s => negb (String.eqb s "")
  end.

Definition item_text (v : option string) : string :=
  match v with
  | None => ""
  | Some s => s
  end.

Open Scope exc_scope.

(** Lines 63-77, up to the point where [axios.get] is called. *)
Definition fetchOrders_request (env : Env) : Exc Request :=
  userToken <- getItem env "userToken" ;;
  token <- (if truthy_item userToken then ret userToken
            else getItem env "authToken") ;;
  userProfile <- getItem env "userProfile" ;;
  if negb (truthy_item token) || negb (truthy_item userProfile)
  then throw (Error "User not authenticated")
  else
    userData <- JSON_parse env (item_text userProfile) ;;
    let backendUrl := getBackendUrl in
    _id <- get_prop userData "_id" ;;
    customer <- (if truthy _id then ret _id else get_prop userData "id") ;;
    ret {| url_prefix := backendUrl ++ "/api/orders/customer/";
           url_customer := customer;
           authorization := "Bearer " ++ item_text token |}.

(** Own enumerable properties copied by [{...v}]. *)
Definition index_key (i : nat) : string := NilEmpty.string_of_uint (Nat.to_uint i).

Fixpoint indexed {A} (f : A -> JsVal) (i : nat) (l : list A) : JsObject :=
  match l with
  | [] => []
  | x :: rest => (index_key i, f x) :: indexed f (S i) rest
  end.

Definition spread (v : JsVal) : JsObject :=
  match v with
  | JObj o => o
  | JArr items => indexed (fun x => x) 0 items
  | JStr s => indexed (fun c => JStr (String c EmptyString)) 0 (list_ascii_of_string s)
  | _ => []
  end.

(** The callback of line 80: [order => ({...order, products: order.products || []})]. *)
Definition normalizeOrder (order : JsVal) : Exc Order :=
  products <- get_prop order "products" ;;
  ret (set_field (spread order) "products" (js_or products (JArr []))).

Fixpoint mapM {A B} (f : A -> Exc B) (l : list A) : Exc (list B) :=
  match l with
  | [] => ret []
  | x :: rest =>
      y <- f x ;;
      ys <- mapM f rest ;;
      ret (y :: ys)
  end.

(** [v.map(f)] on a value that came from JSON: only an array has [map]. *)
Definition array_map {B} (f : JsVal -> Exc B) (v : JsVal) : Exc (list B) :=
  match v with
  | JArr items => mapM f items
  | _ => throw TypeError
  end.

(** Lines 78-87: the rest of the [try] block once [response.data] is there. *)
Definition fetchOrders_response (data : JsVal) : Exc (list Effect) :=
  success <- get_prop data "success" ;;
  if truthy success
  then
    raw <- get_prop data "data" ;;
    ordersWithValidProducts <- array_map normalizeOrder raw ;;
    ret [SetOrders ordersWithValidProducts;
         ConsoleLog "Loaded orders with products:" (List.length ordersWithValidProducts)]
  else ret [].

(** Lines 88-97: [catch] and [finally].  [refreshing] is the constant that
    the closure of [fetchOrders] captured when its render ran. *)
Definition fetchOrders_settle (refreshing : bool) (body : Exc (list Effect)) : list Effect :=
  match body with
  | inr done => done
  | inl error =>
      ConsoleError "Error fetching orders:" error ::
      (if negb refreshing
       then [AlertAlert "Error" "Failed to load orders. Please try again."]
       else [])
  end ++ [SetLoading false; SetRefreshing false].

(** One whole run of [fetchOrders], from call to settled promise. *)
Definition fetchOrders (refreshing : bool) (env : Env) : list Effect :=
  match fetchOrders_request env with
  | inl error => fetchOrders_settle refreshing (inl error)
  | inr req =>
      AxiosGet req ::
      fetchOrders_settle refreshing (data <- axios_get env req ;; fetchOrders_response data)
  end.

Close Scope exc_scope.

Definition the_alert : Effect :=
  AlertAlert "Error" "Failed to load orders. Please try again.".

(** The three ways the [try] block can end once the response is there. *)
Inductive ResponseShape (data : JsVal) : Exc (list Effect) -> Prop :=
| shape_throws e :
    ResponseShape data (inl e)
| shape_not_success success :
    get_prop data "success" = inr success -> truthy success = false ->
    ResponseShape data (inr [])
| shape_success success items l :
    get_prop data "success" = inr success -> truthy success = true ->
    get_prop data "data" = inr (JArr items) ->
    mapM normalizeOrder items = inr l ->
    ResponseShape data
      (inr [SetOrders l; ConsoleLog "Loaded orders with products:" (List.length l)]).

(** The credential store answers every read (no rejected promise). *)
Definition storage_readable (env : Env) : Prop :=
  forall k, exists v, getItem env k = inr v.

(** No usable token under either key: each is null or the empty string. *)
Definition token_missing (env : Env) : Prop :=
  exists t1 t2,
    getItem env "userToken" = inr t1 /\ truthy_item t1 = false /\
    getItem env "authToken" = inr t2 /\ truthy_item t2 = false.

(** No usable profile: null or the empty string. *)
Definition profile_missing (env : Env) : Prop :=
  exists p, getItem env "userProfile" = inr p /\ truthy_item p = false.

(** Counting in an effect list. *)
Definition is_alert (e : Effect) : bool :=
  match e with AlertAlert _ _ => true | _ => false end.

Definition is_network_call (e : Effect) : bool :=
  match e with AxiosGet _ => true | _ => false end.

Definition is_setter (e : Effect) : bool :=
  match e with SetOrders _ | SetLoading _ | SetRefreshing _ => true | _ => false end.

Definition is_console_error (e : Effect) : bool :=
  match e with ConsoleError _ _ => true | _ => false end.

Definition count (p : Effect -> bool) (l : list Effect) : nat :=
  List.length (filter p l).

(* ================================================================== *)
(** ** The screen: state cells, closures, timer (lines 44-59, 100-103) *)

(** A fetch whose network call has not settled yet, with the [refreshing]
    constant of the closure that started it. *)
Record InFlight := mkInFlight {
  closure_refreshing : bool;
  sent : Request
}.

(** One component instance: not rendered yet, on screen, torn down. *)
Inductive Lifecycle : Type := Fresh | Mounted | Unmounted.

Record Screen := mkScreen {
  orders : list Order;
  loading : bool;
  refreshing : bool;
  selectedFilter : string;
  lifecycle : Lifecycle;
  (** [Some r]: the interval of line 57 is armed, and its callback is the
      [fetchOrders] of the first render, which captured [refreshing = r]. *)
  interval : option bool;
  in_flight : list InFlight;
  (** every effect so far, oldest first *)
  log : list Effect
}.

(** [useState([])], [useState(true)], [useState(false)], [useState('all')]. *)
Definition initialScreen : Screen :=
  {| orders := []; loading := true; refreshing := false;
     selectedFilter := initialSelectedFilter;
     lifecycle := Fresh; interval := None; in_flight := []; log := [] |}.

Definition with_cells (s : Screen) (o : list Order) (l r : bool) : Screen :=
  {| orders := o; loading := l; refreshing := r;
     selectedFilter := selectedFilter s; lifecycle := lifecycle s;
     interval := interval s; in_flight := in_flight s; log := log s |}.

Definition with_log (s : Screen) (lg : list Effect) : Screen :=
  {| orders := orders s; loading := loading s; refreshing := refreshing s;
     selectedFilter := selectedFilter s; lifecycle := lifecycle s;
     interval := interval s; in_flight := in_flight s; log := lg |}.

Definition with_in_flight (s : Screen) (fl : list InFlight) : Screen :=
  {| orders := orders s; loading := loading s; refreshing := refreshing s;
     selectedFilter := selectedFilter s; lifecycle := lifecycle s;
     interval := interval s; in_flight := fl; log := log s |}.

Definition with_lifecycle (s : Screen) (m : Lifecycle) (t : option bool) : Screen :=
  {| orders := orders s; loading := loading s; refreshing := refreshing s;
     selectedFilter := selectedFilter s; lifecycle := m;
     interval := t; in_flight := in_flight s; log := log s |}.

Definition with_filter (s : Screen) (f : string) : Screen :=
  {| orders := orders s; loading := loading s; refreshing := refreshing s;
     selectedFilter := f; lifecycle := lifecycle s;
     interval := interval s; in_flight := in_flight s; log := log s |}.

Definition mounted (s : Screen) : bool :=
  match lifecycle s with Mounted => true | _ => false end.

(** A setter call stores its argument in the cell; the code calls the
    setters without looking at the lifecycle. *)
Definition perform (s : Screen) (e : Effect) : Screen :=
  let s' := with_log s (log s ++ [e]) in
  match e with
  | SetOrders l => with_cells s' l (loading s') (refreshing s')
  | SetLoading b => with_cells s' (orders s') b (refreshing s')
  | SetRefreshing b => with_cells s' (orders s') (loading s') b
  | _ => s'
  end.

Definition perform_all (s : Screen) (es : list Effect) : Screen :=
  fold_left perform es s.

(** A call of [fetchOrders] by a closure that captured [captured]: either it
    settles before any network call, or the call goes out and stays pending. *)
Definition begin_fetch (captured : bool) (env : Env) (s : Screen) : Screen :=
  match fetchOrders_request env with
  | inl error => perform_all s (fetchOrders_settle captured (inl error))
  | inr req =>
      perform (with_in_flight s (in_flight s ++ [mkInFlight captured req])) (AxiosGet req)
  end.

Definition remove_nth {A} (i : nat) (l : list A) : list A :=
  firstn i l ++ skipn (S i) l.

(** The network call of the [i]-th pending fetch settles with [outcome]. *)
Definition settle_fetch (i : nat) (outcome : Exc JsVal) (s : Screen) : Screen :=
  match nth_error (in_flight s) i with
  | None => s
  | Some f =>
      perform_all (with_in_flight s (remove_nth i (in_flight s)))
                  (fetchOrders_settle (closure_refreshing f)
                                      (bind outcome fetchOrders_response))
  end.

Inductive Event : Type :=
| Mount                                   (* first render and its effect, lines 53-59 *)
| Tick                                    (* the interval fires *)
| PullToRefresh                           (* [onRefresh], lines 100-103 *)
| Response (i : nat) (outcome : Exc JsVal)
| SelectFilter (label : string)           (* [onPress] of a filter button *)
| Unmount.                                (* the cleanup of line 58 *)

(** The list with its [RefreshControl] is rendered only when the screen is
    past the loading view and the visible list is not empty (lines 247, 281). *)
Definition refresh_control_shown (s : Screen) : bool :=
  mounted s && negb (loading s) &&
  negb (Nat.eqb (List.length (filteredOrders (orders s) (selectedFilter s))) 0).

Definition step (env : Env) (ev : Event) (s : Screen) : Screen :=
  match ev with
  | Mount =>
      match lifecycle s with
      | Fresh =>
          let first_render_refreshing := refreshing s in
          let s1 := begin_fetch first_render_refreshing env
                                (with_lifecycle s Mounted (interval s)) in
          with_lifecycle s1 Mounted (Some first_render_refreshing)
      | _ => s
      end
  | Tick =>
      match interval s with
      | Some captured => begin_fetch captured env s
      | None => s
      end
  | PullToRefresh =>
      if refresh_control_shown s
      then
        let captured := refreshing s in
        begin_fetch captured env (perform s (SetRefreshing true))
      else s
  | Response i outcome => settle_fetch i outcome s
  | SelectFilter label =>
      if mounted s && negb (loading s) && existsb (String.eqb label) orderFilters
      then with_filter s label
      else s
  | Unmount =>
      if mounted s then with_lifecycle s Unmounted None else s
  end.

Definition run (env : Env) (evs : list Event) (s : Screen) : Screen :=
  fold_left (fun st ev => step env ev st) evs s.

(** What holds of every screen reached from [initialScreen]: before the
    first render the cells have their initial values, and the closure of the
    armed interval captured [refreshing = false]. *)
Definition tick_invariant (s : Screen) : Prop :=
  (lifecycle s = Fresh ->
   refreshing s = false /\ interval s = None /\ in_flight s = [])
  /\ (forall c, interval s = Some c -> c = false).

(* ================================================================== *)
(** ** Image URL resolution (lines 1519-1544) *)

Definition slash : ascii := "/"%char.

(** The rest of [s] from its first [/] on (all of [[^/]*] consumed). *)
Fixpoint drop_non_slash (s : string) : string :=
  match s with
  | EmptyString => EmptyString
  | String c rest => if Ascii.eqb c slash then s else drop_non_slash rest
  end.

(** [/http:\/\/[^/]+/] anchored at the start of [s]: what follows the match. *)
Definition match_http_origin (s : string) : option string :=
  match Str.strip_prefix "http://" s with
  | Some (String c rest) =>
      if Ascii.eqb c slash then None else Some (drop_non_slash rest)
  | _ => None
  end.

(** [s.replace(/http:\/\/[^/]+/, repl)]: the leftmost match is replaced;
    [repl] has no [$], so it is inserted literally. *)
Fixpoint replace_http_origin (repl s : string) : string :=
  match s with
  | EmptyString => EmptyString
  | String c rest =>
      match match_http_origin s with
      | Some after => repl ++ after
      | None => String c (replace_http_origin repl rest)
      end
  end.

Definition getImageUrl (imagePath : string) : string :=
  if String.eqb imagePath "" then ""
  else
    let backendUrl := getBackendUrl in
    if Str.startsWith "http" imagePath
    then
      if Str.includes "localhost" imagePath || Str.includes "127.0.0.1" imagePath
      then replace_http_origin backendUrl imagePath
      else imagePath
    else if Str.startsWith "/uploads/" imagePath
    then backendUrl ++ imagePath
    else if Str.startsWith "uploads/" imagePath
    then backendUrl ++ "/" ++ imagePath
    else backendUrl ++ "/uploads/" ++ imagePath.

Definition getProductImageUrl (imagePath : string) : string := getImageUrl imagePath.

(** A URL with a scheme and an origin, as opposed to a relative path. *)
Definition is_absolute (url : string) : bool :=
  Str.startsWith "http://" url || Str.startsWith "https://" url.

Definition not_slash (c : ascii) : bool := negb (Ascii.eqb c slash).

(* ================================================================== *)
(** ** Status badge, filter buttons and product rows (lines 113-135, 156-198,
       229-245) *)

(** The [case] labels shared by the two [switch] statements. *)
Definition knownStatuses : list string :=
  ["order_confirmed"; "processing"; "shipped"; "out_for_delivery";
   "delivered"; "cancelled"].


Definition getStatusText (status : string) : string :=
  if String.eqb status "order_confirmed" then "Order Confirmed"
  else if String.eqb status "processing" then "Processing"
  else if String.eqb status "shipped" then "Shipped"
  else if String.eqb status "out_for_delivery" then "Out for Delivery"
  else if String.eqb status "delivered" then "Delivered"
  else if String.eqb status "cancelled" then "Cancelled"
  else Str.toUpperCase (Str.replace_underscores status).

(** [selectedFilter === item] of [renderFilterButton]: the button of [item]
    is drawn in the active style. *)
Definition filterButtonActive (selectedFilter item : string) : bool :=
  String.eqb selectedFilter item.

(** [item.products.slice(0, 2).map(...)]: the products that get a row.  A
    value from JSON that is no array has no usable [slice]/[map]. *)
Definition shownProducts (item : Order) : Exc (list JsVal) :=
  match get_field item "products" with
  | JArr products => ret (firstn 2 products)
  | _ => throw TypeError
  end.

(** [item.products.length > 2 && <Text>+{item.products.length - 2} more
    items</Text>]: the number on the extra line, if the line is drawn. *)
Definition moreItems (products : list JsVal) : option nat :=
  if (2 <? List.length products)%nat then Some (List.length products - 2) else None.

(** Every stored order has a [products] value. *)
Definition products_present (o : Order) : Prop :=
  get_field o "products" <> JUndefined /\ get_field o "products" <> JNull.

(** The events that call [fetchOrders]. *)
Definition is_trigger (ev : Event) : bool :=
  match ev with
  | Mount | Tick | PullToRefresh => true
  | _ => false
  end.

(** The number on the extra line, 0 when the line is not drawn. *)
Definition moreItemsCount (products : list JsVal) : nat :=
  match moreItems products with
  | Some n => n
  | None => 0
  end.

(** The interval is armed exactly while the screen is mounted. *)
Definition timer_matches_lifecycle_at (s : Screen) : Prop :=
  interval s = if mounted s then Some false else None.

(** A screen reached from the initial one by some events. *)
Definition reachable (env : Env) (s : Screen) : Prop :=
  exists evs, s = run env evs initialScreen.

(* ================================================================== *)
(** ** Concrete inputs used by the examples below *)

Module Sample.

Definition sample_orders : list Order :=
  [ [("orderId", JStr "A1"); ("status", JStr "out_for_delivery"); ("products", JArr [])];
    [("orderId", JStr "A2"); ("status", JStr "processing"); ("products", JArr [])];
    [("orderId", JStr "A3"); ("status", JStr "out_for_delivery"); ("products", JArr [])] ].

(** A raw record as the backend sends it, without [products]. *)
Definition raw_A1 : JsObject :=
  [("orderId", JStr "A1"); ("status", JStr "processing");
   ("totalAmount", JNum (mkNum 100 false 0 false))].

(** [{success: true, data: [raw_A1]}] *)
Definition ok_response : JsVal :=
  JObj [("success", JBool true); ("data", JArr [JObj raw_A1])].

(** [{success: false, error: "Customer not found"}] *)
Definition rejected_envelope : JsVal :=
  JObj [("success", JBool false); ("error", JStr "Customer not found")].

Definition dq : string := String (ascii_of_nat 34) EmptyString.

(** The stored profile text: an object with the one key [_id]. *)
Definition profile_text : string :=
  "{" ++ dq ++ "_id" ++ dq ++ ":" ++ dq ++ "u1" ++ dq ++ "}".

(** A signed-in device: token under [authToken], profile with [_id]. *)
Definition signed_in (network : Request -> Exc JsVal) : Env :=
  {| getItem := fun k =>
       if String.eqb k "authToken" then inr (Some "tok")
       else if String.eqb k "userProfile" then inr (Some profile_text)
       else inr None;
     JSON_parse := fun text =>
       if String.eqb text profile_text then inr (JObj [("_id", JStr "u1")])
       else inl SyntaxError;
     axios_get := network |}.

Definition offline : Request -> Exc JsVal := fun _ => inl (Rejected "Network Error").

Definition online : Request -> Exc JsVal := fun _ => inr ok_response.

(** A device with a profile but no token under either key. *)
Definition no_token : Env :=
  {| getItem := fun k =>
       if String.eqb k "userProfile" then inr (Some profile_text) else inr None;
     JSON_parse := JSON_parse (signed_in online);
     axios_get := online |}.

End Sample.

(* ================================================================== *)
(** * Properties *)

(** ** Strings *)

Module StrFacts.
Import Str.

Lemma is_space_lower_char (c : ascii) : is_space (lower_char c) = is_space c.
Proof.
  destruct c as [[] [] [] [] [] [] [] []]; reflexivity.
Qed.

Lemma toLowerCase_app (a b : string) :
  toLowerCase (a ++ b) = toLowerCase a ++ toLowerCase b.
Proof.
  induction a as [|c a IH]; simpl; [reflexivity | now rewrite IH].
Qed.

Lemma head_toLowerCase (s : string) :
  not_space_opt (head (toLowerCase s)) = not_space_opt (head s).
Proof.
  destruct s as [|c s]; simpl; [reflexivity | now rewrite is_space_lower_char].
Qed.

Lemma last_toLowerCase (s : string) :
  not_space_opt (last (toLowerCase s)) = not_space_opt (last s).
Proof.
  induction s as [|c s IH]; simpl; [reflexivity|].
  destruct s as [|d s]; simpl in *; [now rewrite is_space_lower_char | exact IH].
Qed.

Lemma all_space_toLowerCase (s : string) :
  all_chars is_space (toLowerCase s) = all_chars is_space s.
Proof.
  induction s as [|c s IH]; simpl; [reflexivity|].
  now rewrite is_space_lower_char, IH.
Qed.

Lemma toLowerCase_nonempty (s : string) : s <> "" -> toLowerCase s <> "".
Proof. destruct s; simpl; congruence. Qed.

Lemma last_cons (d : ascii) (a : string) : exists e, last (String d a) = Some e.
Proof.
  revert d. induction a as [|c a IH]; intro d; [now exists d|].
  destruct (IH c) as [e He]. exists e. exact He.
Qed.

Lemma run_after_cons (in_run : bool) (c : ascii) (a : string) :
  run_after in_run (String c a) = run_after (is_space c) a.
Proof.
  unfold run_after. destruct a as [|d a]; [reflexivity|].
  change (last (String c (String d a))) with (last (String d a)).
  destruct (last_cons d a) as [e He]. now rewrite He.
Qed.

Lemma replace_ws_go_app (a b : string) : forall in_run,
  replace_ws_go in_run (a ++ b)
  = replace_ws_go in_run a ++ replace_ws_go (run_after in_run a) b.
Proof.
  induction a as [|c a IH]; intro in_run; [reflexivity|].
  rewrite run_after_cons. simpl.
  destruct (is_space c) eqn:Hc.
  - destruct in_run; rewrite IH; reflexivity.
  - rewrite IH; reflexivity.
Qed.

Lemma replace_ws_go_spaces (w b : string) :
  all_chars is_space w = true ->
  replace_ws_go true (w ++ b) = replace_ws_go true b.
Proof.
  induction w as [|c w IH]; simpl; intro H; [reflexivity|].
  apply andb_prop in H as [Hc Hw]. rewrite Hc. now apply IH.
Qed.

Lemma replace_ws_go_head (b : string) :
  not_space_opt (head b) = true ->
  replace_ws_go true b = replace_ws_go false b.
Proof.
  destruct b as [|c b]; simpl; intro H; [reflexivity|].
  apply negb_true_iff in H. now rewrite H.
Qed.

(** A whitespace run between two words becomes one underscore. *)
Lemma replace_ws_runs_run (a w b : string) :
  w <> "" ->
  all_chars is_space w = true ->
  not_space_opt (last a) = true ->
  not_space_opt (head b) = true ->
  replace_ws_runs (a ++ w ++ b)
  = replace_ws_runs a ++ "_" ++ replace_ws_runs b.
Proof.
  intros Hne Hw Ha Hb. unfold replace_ws_runs.
  rewrite replace_ws_go_app. f_equal.
  assert (Hst : run_after false a = false).
  { unfold run_after. destruct (last a); simpl in *;
      [now apply negb_true_iff in Ha | reflexivity]. }
  rewrite Hst. destruct w as [|c w]; [congruence|].
  simpl in *. apply andb_prop in Hw as [Hc Hw]. rewrite Hc.
  simpl. f_equal. rewrite replace_ws_go_spaces by assumption.
  now apply replace_ws_go_head.
Qed.

(** Without whitespace nothing is replaced. *)
Lemma replace_ws_go_no_space (s : string) : forall in_run,
  all_chars (fun c => negb (is_space c)) s = true ->
  replace_ws_go in_run s = s.
Proof.
  induction s as [|c s IH]; simpl; intros in_run H; [reflexivity|].
  apply andb_prop in H as [Hc Hs]. apply negb_true_iff in Hc.
  rewrite Hc. now rewrite IH.
Qed.

(** No whitespace is left. *)
Lemma replace_ws_go_clean (s : string) : forall in_run,
  all_chars (fun c => negb (is_space c)) (replace_ws_go in_run s) = true.
Proof.
  induction s as [|c s IH]; simpl; intro in_run; [reflexivity|].
  destruct (is_space c) eqn:Hc.
  - destruct in_run; simpl; now rewrite ?IH.
  - simpl. now rewrite Hc, IH.
Qed.

End StrFacts.

(** ** Filter engine *)

Section FilterFacts.

Lemma strict_eq_str_spec (v : JsVal) (s : string) :
  strict_eq_str v s = true <-> v = JStr s.
Proof.
  destruct v; simpl; try (split; [discriminate | congruence]).
  rewrite String.eqb_eq. split; congruence.
Qed.

Lemma subseq_refl {A} (l : list A) : subseq l l.
Proof. induction l; [constructor | apply subseq_keep; assumption]. Qed.

Lemma subseq_filter {A} (p : A -> bool) (l : list A) : subseq (filter p l) l.
Proof.
  induction l as [|x l IH]; simpl; [constructor|].
  destruct (p x); [apply subseq_keep | apply subseq_skip]; assumption.
Qed.

(** [filter p l] is the largest subsequence of [l] made of [p]-elements. *)
Lemma subseq_filter_max {A} (p : A -> bool) (l' l : list A) :
  subseq l' l -> Forall (fun x => p x = true) l' -> subseq l' (filter p l).
Proof.
  induction 1 as [|x l1 l2 _ IH|x l1 l2 _ IH]; intro Hall; simpl.
  - constructor.
  - destruct (p x); [apply subseq_skip|]; now apply IH.
  - inversion Hall as [|? ? Hx Hrest]; subst. rewrite Hx.
    apply subseq_keep. now apply IH.
Qed.

Lemma filter_none {A} (p : A -> bool) (l : list A) :
  (forall x, In x l -> p x = false) -> filter p l = [].
Proof.
  induction l as [|x l IH]; simpl; intro H; [reflexivity|].
  rewrite (H x) by now left. apply IH. intros y Hy. apply H. now right.
Qed.

Lemma filteredOrders_other (orders : list Order) (label : string) :
  label <> "All" ->
  filteredOrders orders label
  = filter (fun order => strict_eq_str (get_field order "status") (statusOfFilter label))
           orders.
Proof.
  intro H. unfold filteredOrders.
  destruct (String.eqb_spec label "All"); [contradiction | reflexivity].
Qed.

End FilterFacts.

(** C4. With the selected filter equal to the literal "All", the visible
    list is the order list itself: same elements, same order. *)
Theorem C4_filter_All_identity (orders : list Order) :
  filteredOrders orders "All" = orders.
Proof. reflexivity. Qed.

(** C5. For a label other than "All": the label is turned into a status code
    by lower-casing and replacing every whitespace run by one underscore
    ("Out for Delivery" gives "out_for_delivery"); the visible list holds
    only orders with that status, holds every such order, is a subsequence of
    the order list and contains every subsequence made of such orders; with
    no matching order it is empty. *)
Theorem C5_filter_by_status (orders : list Order) (label : string) :
  label <> "All" ->
  let code := statusOfFilter label in
  let visible := filteredOrders orders label in
  (* normalisation *)
  code = Str.replace_ws_runs (Str.toLowerCase label)
  /\ statusOfFilter "Out for Delivery" = "out_for_delivery"
  /\ Str.all_chars (fun c => negb (Str.is_space c)) code = true
  /\ (Str.all_chars (fun c => negb (Str.is_space c)) label = true ->
      code = Str.toLowerCase label)
  /\ (forall a w b,
        label = a ++ w ++ b ->
        w <> "" -> Str.all_chars Str.is_space w = true ->
        Str.not_space_opt (Str.last a) = true ->
        Str.not_space_opt (Str.head b) = true ->
        code = statusOfFilter a ++ "_" ++ statusOfFilter b)
  (* soundness, completeness, order *)
  /\ (forall o, In o visible -> has_status code o)
  /\ (forall o, In o orders -> has_status code o -> In o visible)
  /\ subseq visible orders
  /\ (forall l, subseq l orders -> Forall (has_status code) l -> subseq l visible)
  (* nothing matches *)
  /\ ((forall o, In o orders -> ~ has_status code o) -> visible = []).
Proof.
  intros Hne code visible.
  assert (Hv : visible
               = filter (fun order => strict_eq_str (get_field order "status") code) orders)
    by (apply filteredOrders_other; exact Hne).
  repeat split.
  - apply StrFacts.replace_ws_go_clean.
  - intro Hns. unfold code, statusOfFilter, Str.replace_ws_runs.
    apply StrFacts.replace_ws_go_no_space.
    clear -Hns. induction label as [|c s IH]; simpl in *; [reflexivity|].
    apply andb_prop in Hns as [Hc Hs].
    rewrite StrFacts.is_space_lower_char, Hc. now apply IH.
  - intros a w b Hl Hw Hsp Ha Hb. unfold code, statusOfFilter. rewrite Hl.
    rewrite !StrFacts.toLowerCase_app.
    apply StrFacts.replace_ws_runs_run.
    + now apply StrFacts.toLowerCase_nonempty.
    + now rewrite StrFacts.all_space_toLowerCase.
    + now rewrite StrFacts.last_toLowerCase.
    + now rewrite StrFacts.head_toLowerCase.
  - intros o Ho. rewrite Hv in Ho. apply filter_In in Ho as [_ Ho].
    now apply strict_eq_str_spec.
  - intros o Ho Hs. rewrite Hv. apply filter_In. split; [exact Ho|].
    now apply strict_eq_str_spec.
  - rewrite Hv. apply subseq_filter.
  - intros l Hsub Hall. rewrite Hv. apply subseq_filter_max; [exact Hsub|].
    eapply Forall_impl; [|exact Hall]. intros o Ho. now apply strict_eq_str_spec.
  - intro Hnone. rewrite Hv. apply filter_none. intros o Ho.
    destruct (strict_eq_str (get_field o "status") code) eqn:E; [|reflexivity].
    exfalso. apply (Hnone o Ho). now apply strict_eq_str_spec.
Qed.

Lemma C5_filter_by_status_witness :
  "Out for Delivery" <> "All"
  /\ filteredOrders Sample.sample_orders "Out for Delivery"
     = [ [("orderId", JStr "A1"); ("status", JStr "out_for_delivery"); ("products", JArr [])];
         [("orderId", JStr "A3"); ("status", JStr "out_for_delivery"); ("products", JArr [])] ]
  /\ subseq (filteredOrders Sample.sample_orders "Out for Delivery") Sample.sample_orders.
Proof.
  split; [discriminate|]. split; [reflexivity|].
  apply (C5_filter_by_status Sample.sample_orders "Out for Delivery"). discriminate.
Defined.

(** C10. The screen starts with the selected filter 'all', which differs from
    the sentinel "All"; the visible list is then computed by the filtering
    branch with status code 'all': it is the sublist of orders whose status
    is the string 'all', hence empty when no order has that status, and not
    the full order list. *)
Theorem C10_initial_filter_hides_orders (orders : list Order) :
  selectedFilter initialScreen = "all"
  /\ "all" <> "All"
  /\ statusOfFilter (selectedFilter initialScreen) = "all"
  /\ filteredOrders orders (selectedFilter initialScreen)
     = filter (fun order => strict_eq_str (get_field order "status") "all") orders
  /\ (forall o, In o (filteredOrders orders (selectedFilter initialScreen)) <->
                In o orders /\ has_status "all" o)
  /\ ((forall o, In o orders -> ~ has_status "all" o) ->
      filteredOrders orders (selectedFilter initialScreen) = [])
  /\ ((forall o, In o orders -> ~ has_status "all" o) -> orders <> [] ->
      filteredOrders orders (selectedFilter initialScreen) <> orders).
Proof.
  assert (Hf : filteredOrders orders (selectedFilter initialScreen)
               = filter (fun order => strict_eq_str (get_field order "status") "all") orders)
    by reflexivity.
  assert (Hnone : (forall o, In o orders -> ~ has_status "all" o) ->
                  filteredOrders orders (selectedFilter initialScreen) = []).
  { intro H. rewrite Hf. apply filter_none. intros o Ho.
    destruct (strict_eq_str (get_field o "status") "all") eqn:E; [|reflexivity].
    exfalso. apply (H o Ho). now apply strict_eq_str_spec. }
  repeat split; try discriminate; try exact Hnone.
  - rewrite Hf in H. now apply filter_In in H.
  - rewrite Hf in H. apply filter_In in H as [_ H]. now apply strict_eq_str_spec.
  - intros [Ho Hs]. rewrite Hf. apply filter_In. split; [exact Ho|].
    now apply strict_eq_str_spec.
  - intros H Hne Heq. rewrite (Hnone H) in Heq. congruence.
Qed.

Lemma C10_initial_filter_hides_orders_witness :
  filteredOrders Sample.sample_orders (selectedFilter initialScreen) = []
  /\ filteredOrders Sample.sample_orders (selectedFilter initialScreen) <> Sample.sample_orders.
Proof.
  pose proof (C10_initial_filter_hides_orders Sample.sample_orders)
    as (_ & _ & _ & _ & _ & Hnone & Hdiff).
  assert (H : forall o, In o Sample.sample_orders -> ~ has_status "all" o).
  { intros o [<-|[<-|[<-|[]]]]; unfold has_status; simpl; discriminate. }
  split; [apply Hnone; exact H | apply Hdiff; [exact H | discriminate]].
Defined.

(** ** Order fetcher *)

Section ObjectFacts.

Lemma get_set_same (o : JsObject) (k : string) (v : JsVal) :
  get_field (set_field o k v) k = v.
Proof.
  induction o as [|[k' v'] o IH]; simpl.
  - now rewrite String.eqb_refl.
  - destruct (String.eqb k' k) eqn:E; simpl; now rewrite E.
Qed.

Lemma get_set_other (o : JsObject) (k k' : string) (v : JsVal) :
  k' <> k -> get_field (set_field o k v) k' = get_field o k'.
Proof.
  intro Hne. induction o as [|[k0 v0] o IH]; simpl.
  - destruct (String.eqb_spec k k'); [congruence | reflexivity].
  - destruct (String.eqb_spec k0 k) as [->|Hk]; simpl.
    + destruct (String.eqb_spec k k'); [congruence | reflexivity].
    + now rewrite IH.
Qed.

Lemma js_or_present (v : JsVal) :
  js_or v (JArr []) <> JUndefined /\ js_or v (JArr []) <> JNull.
Proof.
  unfold js_or. destruct v; simpl; split; try discriminate;
    destruct (negb _) + destruct b; discriminate.
Qed.

Lemma mapM_Forall2 {A B} (f : A -> Exc B) (l : list A) (r : list B) :
  mapM f l = inr r -> Forall2 (fun x y => f x = inr y) l r.
Proof.
  revert r. induction l as [|x l IH]; simpl; intros r H.
  - inversion H. constructor.
  - destruct (f x) as [e|y] eqn:Hx; simpl in H; [discriminate|].
    destruct (mapM f l) as [e|ys]; simpl in H; [discriminate|].
    inversion H; subst. constructor; [exact Hx | now apply IH].
Qed.

End ObjectFacts.

(** C8. Normalising a raw order record never fails; the result has every
    field other than [products] as received, [products] as received when it
    is there (truthy) and the empty array when it is missing; in no case is
    [products] undefined or null afterwards.  A successful response stores
    exactly the records normalised this way. *)
Theorem C8_products_defaulted (raw : JsObject) :
  let normalized := set_field raw "products" (js_or (get_field raw "products") (JArr [])) in
  normalizeOrder (JObj raw) = inr normalized
  /\ (get_field raw "products" = JUndefined -> get_field normalized "products" = JArr [])
  /\ (truthy (get_field raw "products") = true ->
      get_field normalized "products" = get_field raw "products")
  /\ (forall k, k <> "products" -> get_field normalized k = get_field raw k)
  /\ get_field normalized "products" <> JUndefined
  /\ get_field normalized "products" <> JNull
  /\ (forall (v : JsVal) (o : Order),
        normalizeOrder v = inr o ->
        get_field o "products" <> JUndefined /\ get_field o "products" <> JNull)
  /\ (forall (data : JsVal) (l : list Order) (rest : list Effect),
        fetchOrders_response data = inr (SetOrders l :: rest) ->
        exists items,
          get_prop data "data" = inr (JArr items)
          /\ Forall2 (fun r o => normalizeOrder r = inr o) items l).
Proof.
  intro normalized. unfold normalized.
  split; [reflexivity|]. split.
  { intro H. rewrite get_set_same, H. reflexivity. }
  split.
  { intro H. rewrite get_set_same. unfold js_or. now rewrite H. }
  split.
  { intros k Hk. now apply get_set_other. }
  split; [rewrite get_set_same; apply js_or_present|].
  split; [rewrite get_set_same; apply js_or_present|].
  split.
  - intros v o H. unfold normalizeOrder in H.
    destruct (get_prop v "products") as [e|p]; simpl in H; [discriminate|].
    inversion H; subst. rewrite get_set_same. apply js_or_present.
  - intros data l rest H. unfold fetchOrders_response in H.
    destruct (get_prop data "success") as [e|success]; simpl in H; [discriminate|].
    destruct (truthy success); [|discriminate].
    destruct (get_prop data "data") as [e|d]; simpl in H; [discriminate|].
    destruct d; simpl in H; try discriminate.
    destruct (mapM normalizeOrder items) as [e|ys] eqn:Hm; simpl in H; [discriminate|].
    inversion H; subst. exists items. split; [reflexivity|].
    now apply mapM_Forall2.
Qed.

Lemma C8_products_defaulted_witness :
  get_field Sample.raw_A1 "products" = JUndefined
  /\ normalizeOrder (JObj Sample.raw_A1)
     = inr (Sample.raw_A1 ++ [("products", JArr [])])%list
  /\ get_field (Sample.raw_A1 ++ [("products", JArr [])])%list "products" = JArr [].
Proof.
  split; [reflexivity|]. split; [reflexivity|].
  apply (C8_products_defaulted Sample.raw_A1). reflexivity.
Defined.

Section FetchFacts.

Lemma fetchOrders_settle_error (r : bool) (e : JsError) :
  fetchOrders_settle r (inl e)
  = (ConsoleError "Error fetching orders:" e ::
     (if r then [] else [the_alert]) ++ [SetLoading false; SetRefreshing false])%list.
Proof. destruct r; reflexivity. Qed.

Lemma fetchOrders_response_shape (data : JsVal) :
  ResponseShape data (fetchOrders_response data).
Proof.
  unfold fetchOrders_response.
  destruct (get_prop data "success") as [e|success] eqn:Hs; simpl; [constructor|].
  destruct (truthy success) eqn:Ht; [|now apply shape_not_success with success].
  destruct (get_prop data "data") as [e|d] eqn:Hd; simpl; [constructor|].
  destruct d; simpl; try constructor.
  destruct (mapM normalizeOrder items) as [e|l] eqn:Hm; simpl; [constructor|].
  now apply shape_success with success items.
Qed.

Lemma log_perform (s : Screen) (e : Effect) : log (perform s e) = (log s ++ [e])%list.
Proof. destruct e; reflexivity. Qed.

Lemma log_perform_all (es : list Effect) : forall s,
  log (perform_all s es) = (log s ++ es)%list.
Proof.
  unfold perform_all.
  induction es as [|e es IH]; intro s; simpl.
  - now rewrite app_nil_r.
  - rewrite IH, log_perform, <- app_assoc. reflexivity.
Qed.

Lemma frame_perform (s : Screen) (e : Effect) :
  lifecycle (perform s e) = lifecycle s
  /\ interval (perform s e) = interval s
  /\ in_flight (perform s e) = in_flight s
  /\ selectedFilter (perform s e) = selectedFilter s.
Proof. destruct e; repeat split. Qed.

Lemma frame_perform_all (es : list Effect) : forall s,
  lifecycle (perform_all s es) = lifecycle s
  /\ interval (perform_all s es) = interval s
  /\ in_flight (perform_all s es) = in_flight s
  /\ selectedFilter (perform_all s es) = selectedFilter s.
Proof.
  unfold perform_all.
  induction es as [|e es IH]; intro s; simpl; [repeat split|].
  destruct (IH (perform s e)) as (H1 & H2 & H3 & H4).
  destruct (frame_perform s e) as (F1 & F2 & F3 & F4).
  rewrite H1, H2, H3, H4. repeat split; assumption.
Qed.

(** The order list after the effects of one settled fetch. *)
Lemma orders_after_error (s : Screen) (r : bool) (e : JsError) :
  orders (perform_all s (fetchOrders_settle r (inl e))) = orders s.
Proof. destruct r; reflexivity. Qed.

Lemma orders_after_nothing (s : Screen) (r : bool) :
  orders (perform_all s (fetchOrders_settle r (inr []))) = orders s.
Proof. reflexivity. Qed.

Lemma orders_after_success (s : Screen) (r : bool) (l : list Order) (n : nat) (m : string) :
  orders (perform_all s (fetchOrders_settle r (inr [SetOrders l; ConsoleLog m n]))) = l.
Proof. reflexivity. Qed.

Lemma count_app (p : Effect -> bool) (a b : list Effect) :
  count p (a ++ b) = count p a + count p b.
Proof. unfold count. now rewrite filter_app, length_app. Qed.

Lemma request_unauthenticated (env : Env) :
  storage_readable env ->
  token_missing env \/ profile_missing env ->
  fetchOrders_request env = inl (Error "User not authenticated").
Proof.
  intros Hread Hmiss. unfold fetchOrders_request.
  destruct (Hread "userToken") as [t1 H1].
  destruct (Hread "authToken") as [t2 H2].
  destruct (Hread "userProfile") as [p Hp].
  rewrite H1. simpl.
  destruct Hmiss as [(u1 & u2 & E1 & F1 & E2 & F2) | (q & Eq & Fq)].
  - rewrite H1 in E1. rewrite H2 in E2. inversion E1; inversion E2; subst.
    rewrite F1, H2. simpl. rewrite Hp. simpl. rewrite F2. reflexivity.
  - rewrite Hp in Eq. inversion Eq; subst.
    destruct (truthy_item t1).
    + simpl. rewrite Hp. simpl. rewrite Fq. now rewrite orb_true_r.
    + rewrite H2. simpl. rewrite Hp. simpl. rewrite Fq. now rewrite orb_true_r.
Qed.

End FetchFacts.

(** C6. When the store holds no token (under either key) or no user profile,
    [fetchOrders] throws "User not authenticated" before the request is
    built: no network call goes out, none is left pending, and the run
    consists of the error handling alone. *)
Theorem C6_unauthenticated_no_network (env : Env) (captured : bool) (s : Screen) :
  storage_readable env ->
  token_missing env \/ profile_missing env ->
  fetchOrders_request env = inl (Error "User not authenticated")
  /\ fetchOrders captured env
     = fetchOrders_settle captured (inl (Error "User not authenticated"))
  /\ count is_network_call (fetchOrders captured env) = 0
  /\ in_flight (begin_fetch captured env s) = in_flight s
  /\ count is_network_call (log (begin_fetch captured env s))
     = count is_network_call (log s).
Proof.
  intros Hread Hmiss.
  pose proof (request_unauthenticated env Hread Hmiss) as Hreq.
  split; [exact Hreq|].
  unfold fetchOrders, begin_fetch. rewrite Hreq.
  split; [reflexivity|]. split; [destruct captured; reflexivity|].
  split; [apply frame_perform_all|].
  rewrite log_perform_all, count_app.
  destruct captured; unfold count; simpl; lia.
Qed.

Lemma C6_unauthenticated_no_network_witness :
  storage_readable Sample.no_token
  /\ token_missing Sample.no_token
  /\ count is_network_call (fetchOrders false Sample.no_token) = 0
  /\ in_flight (step Sample.no_token Mount initialScreen) = [].
Proof.
  assert (Hread : storage_readable Sample.no_token).
  { intro k. unfold Sample.no_token; simpl.
    destruct (String.eqb k "userProfile"); eexists; reflexivity. }
  assert (Hmiss : token_missing Sample.no_token).
  { exists None, None. repeat split. }
  split; [exact Hread|]. split; [exact Hmiss|].
  split.
  - apply (C6_unauthenticated_no_network Sample.no_token false initialScreen Hread
             (or_introl Hmiss)).
  - reflexivity.
Defined.

(** C2 (as stated, refuted). A response with [success: false] throws nothing:
    the [try] block ends normally, nothing is logged as an error, no alert is
    raised; the run is the network call followed by the two flag resets. *)
Lemma C2_non_success_envelope_is_silent :
  get_prop Sample.rejected_envelope "success" = inr (JBool false)
  /\ truthy (JBool false) = false
  /\ fetchOrders_response Sample.rejected_envelope = inr []
  /\ ~ (exists e, fetchOrders_response Sample.rejected_envelope = inl e)
  /\ (let run := fetchOrders false
                   (Sample.signed_in (fun _ => inr Sample.rejected_envelope)) in
      count is_console_error run = 0
      /\ count is_alert run = 0
      /\ filter (fun e => negb (is_network_call e)) run
         = [SetLoading false; SetRefreshing false]).
Proof.
  repeat split; try reflexivity.
  intros [e He]. discriminate He.
Qed.

(** C2 (amended). A response whose success flag is not truthy raises no
    error: the run ends with the flag resets only.  A transport error and a
    failure while reading the response (a null body, a success envelope whose
    data is not an array) are caught: the error is written with
    console.error, and the fixed message "Failed to load orders. Please try
    again." is shown when the closure's [refreshing] is false. *)
Theorem C2_failure_paths (captured : bool) :
  (forall data success,
      get_prop data "success" = inr success -> truthy success = false ->
      fetchOrders_response data = inr []
      /\ fetchOrders_settle captured (fetchOrders_response data)
         = [SetLoading false; SetRefreshing false])
  /\ (forall e,
        fetchOrders_settle captured (bind (inl e) fetchOrders_response)
        = (ConsoleError "Error fetching orders:" e ::
           (if captured then [] else [the_alert])
           ++ [SetLoading false; SetRefreshing false])%list)
  /\ (forall data e,
        fetchOrders_response data = inl e ->
        fetchOrders_settle captured (bind (inr data) fetchOrders_response)
        = (ConsoleError "Error fetching orders:" e ::
           (if captured then [] else [the_alert])
           ++ [SetLoading false; SetRefreshing false])%list)
  /\ fetchOrders_response JNull = inl TypeError
  /\ fetchOrders_response JUndefined = inl TypeError
  /\ (forall data success raw,
        get_prop data "success" = inr success -> truthy success = true ->
        get_prop data "data" = inr raw ->
        (forall items, raw <> JArr items) ->
        fetchOrders_response data = inl TypeError).
Proof.
  split.
  { intros data success Hs Ht. unfold fetchOrders_response.
    rewrite Hs. simpl. rewrite Ht. split; reflexivity. }
  split.
  { intro e. simpl. apply fetchOrders_settle_error. }
  split.
  { intros data e He. simpl. rewrite He. apply fetchOrders_settle_error. }
  split; [reflexivity|]. split; [reflexivity|].
  intros data success raw Hs Ht Hd Hraw. unfold fetchOrders_response.
  rewrite Hs. simpl. rewrite Ht, Hd. simpl.
  destruct raw; try reflexivity. now destruct (Hraw items).
Qed.

Lemma C2_failure_paths_witness :
  fetchOrders_settle false (fetchOrders_response Sample.rejected_envelope)
  = [SetLoading false; SetRefreshing false]
  /\ fetchOrders_response (JObj [("success", JBool true); ("data", JStr "oops")])
     = inl TypeError.
Proof.
  split.
  - apply (C2_failure_paths false) with (success := JBool false); reflexivity.
  - apply (C2_failure_paths false) with (success := JBool true) (raw := JStr "oops");
      try reflexivity.
    intros items H. discriminate H.
Defined.

(** C7. A fetch never touches the order list when it starts.  When its
    network call settles, the order list is either left as it was (transport
    error, envelope without a truthy success flag, failure while reading the
    response) or it is the complete list of normalised records of the
    response; nothing in between. *)
Theorem C7_fetch_atomic (s : Screen) (i : nat) (f : InFlight) (outcome : Exc JsVal) :
  nth_error (in_flight s) i = Some f ->
  let s' := settle_fetch i outcome s in
  (* failure kinds *)
  (forall e, outcome = inl e -> orders s' = orders s)
  /\ (forall data success,
        outcome = inr data ->
        get_prop data "success" = inr success -> truthy success = false ->
        orders s' = orders s)
  /\ (forall data e,
        outcome = inr data -> fetchOrders_response data = inl e ->
        orders s' = orders s)
  (* success *)
  /\ (forall data success items l,
        outcome = inr data ->
        get_prop data "success" = inr success -> truthy success = true ->
        get_prop data "data" = inr (JArr items) ->
        mapM normalizeOrder items = inr l ->
        orders s' = l)
  (* all or nothing *)
  /\ (orders s' = orders s
      \/ exists data items,
           outcome = inr data
           /\ get_prop data "data" = inr (JArr items)
           /\ Forall2 (fun raw o => normalizeOrder raw = inr o) items (orders s'))
  (* missing credentials, and the start of any fetch *)
  /\ (forall env captured, orders (begin_fetch captured env s) = orders s).
Proof.
  intros Hf s'. unfold s', settle_fetch. rewrite Hf.
  set (s0 := with_in_flight s (remove_nth i (in_flight s))).
  assert (H0 : orders s0 = orders s) by reflexivity.
  split.
  { intros e ->. rewrite <- H0. apply orders_after_error. }
  split.
  { intros data success -> Hs Ht. rewrite <- H0.
    unfold bind, fetchOrders_response. rewrite Hs. unfold bind. rewrite Ht.
    apply orders_after_nothing. }
  split.
  { intros data e -> He. rewrite <- H0. unfold bind at 1. rewrite He.
    apply orders_after_error. }
  split.
  { intros data success items l -> Hs Ht Hd Hm.
    unfold bind at 1. unfold fetchOrders_response.
    rewrite Hs. unfold bind at 1. rewrite Ht, Hd. unfold bind at 1.
    unfold array_map. rewrite Hm. unfold bind, ret.
    apply orders_after_success. }
  split.
  { rewrite <- H0. destruct outcome as [e|data].
    - left. apply orders_after_error.
    - change (bind (inr data) fetchOrders_response) with (fetchOrders_response data).
      destruct (fetchOrders_response_shape data)
        as [e | success Hs Ht | success items l Hs Ht Hd Hm].
      + left. apply orders_after_error.
      + left. apply orders_after_nothing.
      + right. exists data, items. split; [reflexivity|]. split; [exact Hd|].
        rewrite orders_after_success. now apply mapM_Forall2. }
  intros env captured. unfold begin_fetch.
  destruct (fetchOrders_request env) as [e|req].
  - apply orders_after_error.
  - reflexivity.
Qed.

Lemma C7_fetch_atomic_witness :
  let s := step (Sample.signed_in Sample.online) Mount initialScreen in
  nth_error (in_flight s) 0
  = Some (mkInFlight false
            (mkRequest "https://dummy-bac.onrender.com/api/orders/customer/"
                       (JStr "u1") "Bearer tok"))
  /\ orders (settle_fetch 0 (inl (Rejected "Network Error")) s) = orders s
  /\ orders (settle_fetch 0 (inr Sample.ok_response) s)
     = [ (Sample.raw_A1 ++ [("products", JArr [])])%list ].
Proof.
  intro s. split; [reflexivity|]. split.
  - destruct (C7_fetch_atomic s 0 _ (inl (Rejected "Network Error")) eq_refl)
      as (Herr & _).
    apply (Herr (Rejected "Network Error")). reflexivity.
  - destruct (C7_fetch_atomic s 0 _ (inr Sample.ok_response) eq_refl)
      as (_ & _ & _ & Hok & _).
    apply (Hok Sample.ok_response (JBool true) [JObj Sample.raw_A1]); reflexivity.
Defined.

(** ** Refresh scheduler *)

Section SchedulerFacts.

Lemma alerts_of_settle (captured : bool) (e : JsError) :
  count is_alert (fetchOrders_settle captured (inl e)) = if captured then 0 else 1.
Proof. destruct captured; reflexivity. Qed.

Lemma frame_begin_fetch (captured : bool) (env : Env) (s : Screen) :
  lifecycle (begin_fetch captured env s) = lifecycle s
  /\ interval (begin_fetch captured env s) = interval s
  /\ selectedFilter (begin_fetch captured env s) = selectedFilter s.
Proof.
  unfold begin_fetch. destruct (fetchOrders_request env) as [e|req].
  - destruct (frame_perform_all (fetchOrders_settle captured (inl e)) s)
      as (H1 & H2 & _ & H4). auto.
  - repeat split.
Qed.

Lemma frame_settle_fetch (i : nat) (outcome : Exc JsVal) (s : Screen) :
  lifecycle (settle_fetch i outcome s) = lifecycle s
  /\ interval (settle_fetch i outcome s) = interval s
  /\ selectedFilter (settle_fetch i outcome s) = selectedFilter s.
Proof.
  unfold settle_fetch. destruct (nth_error (in_flight s) i) as [f|]; [|auto].
  match goal with
  | |- context [perform_all ?s0 ?es] =>
      destruct (frame_perform_all es s0) as (H1 & H2 & _ & H4)
  end.
  rewrite H1, H2, H4. repeat split.
Qed.

Lemma tick_invariant_step (env : Env) (ev : Event) (s : Screen) :
  tick_invariant s -> tick_invariant (step env ev s).
Proof.
  intros [Hfresh Hcap]. pose proof (conj Hfresh Hcap : tick_invariant s) as Hinv.
  destruct ev; cbn [step].
  - (* Mount *)
    destruct (lifecycle s) eqn:Hl; [|exact Hinv ..].
    destruct (Hfresh eq_refl) as (Hr & _ & _).
    split; simpl; [discriminate|]. intros c Hc. congruence.
  - (* Tick *)
    destruct (interval s) as [captured|] eqn:Hi; [|exact Hinv].
    destruct (frame_begin_fetch captured env s) as (H1 & H2 & _).
    split.
    + rewrite H1. intro Hf. destruct (Hfresh Hf) as (_ & Hn & _). congruence.
    + rewrite H2, Hi. exact (Hcap).
  - (* PullToRefresh *)
    destruct (refresh_control_shown s) eqn:Hshown; [|exact Hinv].
    unfold refresh_control_shown, mounted in Hshown.
    destruct (frame_begin_fetch (refreshing s) env (perform s (SetRefreshing true)))
      as (H1 & H2 & _).
    split.
    + rewrite H1. simpl. intro Hf. rewrite Hf in Hshown. discriminate.
    + rewrite H2. exact Hcap.
  - (* Response *)
    destruct (frame_settle_fetch i outcome s) as (H1 & H2 & _).
    split.
    + rewrite H1. intro Hf. destruct (Hfresh Hf) as (Hr & Hn & Hfl).
      unfold settle_fetch. rewrite Hfl. destruct i; simpl; auto.
    + rewrite H2. exact Hcap.
  - (* SelectFilter *)
    destruct (mounted s && negb (loading s) && existsb (String.eqb label) orderFilters);
      exact Hinv.
  - (* Unmount *)
    unfold mounted. destruct (lifecycle s) eqn:Hl; try exact Hinv.
    split; simpl; [discriminate|]. intros c Hc. discriminate.
Qed.

Lemma tick_invariant_run (env : Env) (evs : list Event) : forall s,
  tick_invariant s -> tick_invariant (run env evs s).
Proof.
  unfold run. induction evs as [|ev evs IH]; intros s H; simpl; [exact H|].
  apply IH. now apply tick_invariant_step.
Qed.

(** On every run of the screen the closure that the interval calls saw
    [refreshing = false]. *)
Lemma tick_closure_is_first_render (env : Env) (evs : list Event) (c : bool) :
  interval (run env evs initialScreen) = Some c -> c = false.
Proof.
  apply (tick_invariant_run env evs initialScreen).
  split; [intros _; repeat split | intros c' H; discriminate H].
Qed.

(** Hence a tick whose fetch fails before the network call alerts. *)
Lemma tick_failure_alerts (env : Env) (evs : list Event) (e : JsError) :
  let s := run env evs initialScreen in
  interval s <> None ->
  fetchOrders_request env = inl e ->
  count is_alert (log (step env Tick s)) = S (count is_alert (log s)).
Proof.
  intros s Harmed Hreq. simpl.
  destruct (interval s) as [c|] eqn:Hi; [|congruence].
  rewrite (tick_closure_is_first_render env evs c Hi).
  unfold begin_fetch. rewrite Hreq, log_perform_all, count_app.
  rewrite (alerts_of_settle false e). lia.
Qed.

End SchedulerFacts.

(** C1 (the code at the failing input). The interval calls the first
    render's [fetchOrders], whose [refreshing] is false, so a failing timer
    tick raises the alert just as a failing initial load or manual refresh
    does: after a good initial load, one failing tick leaves one alert in the
    log; so does a failing pull-to-refresh, and so does a failing first
    load. *)
Theorem C1_failing_tick_raises_alert :
  let env := Sample.signed_in Sample.offline in
  let loaded := run env [Mount; Response 0 (inr Sample.ok_response)] initialScreen in
  (* background tick *)
  (let after_tick := run env [Tick; Response 0 (inl (Rejected "Network Error"))] loaded in
   refreshing loaded = false
   /\ interval loaded = Some false
   /\ count is_alert (log loaded) = 0
   /\ count is_alert (log after_tick) = 1
   /\ count is_console_error (log after_tick) = 1
   /\ orders after_tick = orders loaded)
  (* manual refresh *)
  /\ (let after_pull :=
        run env [SelectFilter "Processing"; PullToRefresh;
                 Response 0 (inl (Rejected "Network Error"))] loaded in
      count is_alert (log after_pull) = 1)
  (* initial load *)
  /\ (let after_mount :=
        run env [Mount; Response 0 (inl (Rejected "Network Error"))] initialScreen in
      count is_alert (log after_mount) = 1)
  (* the guard in isolation *)
  /\ (forall e, count is_alert (fetchOrders_settle false (inl e)) = 1)
  /\ (forall e, count is_alert (fetchOrders_settle true (inl e)) = 0).
Proof.
  repeat split.
Qed.

(** C3 (as stated, refuted). The screen is torn down while the first fetch is
    pending; when the response arrives the completion path still calls
    [setOrders], [setLoading] and [setRefreshing]: three setter calls are
    made after the teardown and the cells for the list and the loading flag
    receive new values. *)
Lemma C3_setters_called_after_unmount :
  let env := Sample.signed_in Sample.online in
  let torn_down := run env [Mount; Unmount] initialScreen in
  let resolved := step env (Response 0 (inr Sample.ok_response)) torn_down in
  lifecycle torn_down = Unmounted
  /\ List.length (in_flight torn_down) = 1
  /\ count is_setter (log torn_down) = 0
  /\ count is_setter (log resolved) = 3
  /\ orders torn_down = [] /\ orders resolved <> []
  /\ loading torn_down = true /\ loading resolved = false.
Proof.
  repeat split. discriminate.
Qed.

(** C3 (amended). Unmounting disarms the interval and nothing else: later
    ticks, pulls and filter presses do nothing, while the fetches in flight
    stay in flight.  When one of them settles after the teardown, its
    completion path runs as usual: it ends with [setLoading(false)] and
    [setRefreshing(false)], and a successful response is passed to
    [setOrders] before that. *)
Theorem C3_unmount_disarms_timer_only (env : Env) (s : Screen) :
  mounted s = true ->
  let s' := step env Unmount s in
  lifecycle s' = Unmounted
  /\ interval s' = None
  /\ (forall env', step env' Tick s' = s')
  /\ (forall env', step env' PullToRefresh s' = s')
  /\ (forall env' label, step env' (SelectFilter label) s' = s')
  /\ in_flight s' = in_flight s
  /\ (forall i f outcome,
        nth_error (in_flight s') i = Some f ->
        let done := step env (Response i outcome) s' in
        (exists before,
            log done = (log s' ++ before ++ [SetLoading false; SetRefreshing false])%list)
        /\ loading done = false
        /\ refreshing done = false
        /\ (forall l rest,
              bind outcome fetchOrders_response = inr (SetOrders l :: rest) ->
              orders done = l /\ In (SetOrders l) (log done))).
Proof.
  intros Hm s'. unfold s'. cbn [step]. rewrite Hm.
  split; [reflexivity|]. split; [reflexivity|].
  split; [reflexivity|]. split; [reflexivity|].
  split; [reflexivity|]. split; [reflexivity|].
  intros i f outcome Hf. cbn [step]. unfold settle_fetch. rewrite Hf.
  set (s0 := with_in_flight _ _).
  destruct outcome as [e|data].
  - change (bind (inl e) fetchOrders_response) with (@inl JsError (list Effect) e).
    rewrite log_perform_all. split; [|split; [|split]].
    + destruct (closure_refreshing f); eexists; simpl; reflexivity.
    + destruct (closure_refreshing f); reflexivity.
    + destruct (closure_refreshing f); reflexivity.
    + intros l rest H. discriminate H.
  - change (bind (inr data) fetchOrders_response) with (fetchOrders_response data).
    rewrite log_perform_all.
    destruct (fetchOrders_response_shape data)
      as [e | success Hs Ht | success items l Hs Ht Hd Hmap].
    + split; [|split; [|split]].
      * destruct (closure_refreshing f); eexists; simpl; reflexivity.
      * destruct (closure_refreshing f); reflexivity.
      * destruct (closure_refreshing f); reflexivity.
      * intros l rest H. discriminate H.
    + split; [|split; [|split]]; try reflexivity.
      * exists []. reflexivity.
      * intros l rest H. discriminate H.
    + split; [|split; [|split]]; try reflexivity.
      * eexists. simpl. reflexivity.
      * intros l' rest H. inversion H; subst. split; [reflexivity|].
        apply in_or_app. right. now left.
Qed.

Lemma C3_unmount_disarms_timer_only_witness :
  let env := Sample.signed_in Sample.online in
  let s := step env Mount initialScreen in
  mounted s = true
  /\ interval (step env Unmount s) = None
  /\ step env Tick (step env Unmount s) = step env Unmount s
  /\ loading (step env (Response 0 (inr Sample.ok_response)) (step env Unmount s)) = false.
Proof.
  intros env s.
  destruct (C3_unmount_disarms_timer_only env s eq_refl)
    as (_ & Hi & Htick & _ & _ & _ & Hdone).
  split; [reflexivity|]. split; [exact Hi|]. split; [apply Htick|].
  destruct (Hdone 0 _ (inr Sample.ok_response) eq_refl) as (_ & Hl & _).
  exact Hl.
Defined.

(** ** Image URL resolution *)

Section ImageUrlFacts.

Lemma drop_non_slash_host (host rest : string) :
  Str.all_chars not_slash host = true ->
  rest = "" \/ Str.head rest = Some slash ->
  drop_non_slash (host ++ rest) = rest.
Proof.
  intros Hhost Hrest. induction host as [|c host IH]; simpl in *.
  - destruct Hrest as [->|Hh]; [reflexivity|].
    destruct rest as [|d rest]; [reflexivity|]. simpl in Hh.
    inversion Hh; subst. reflexivity.
  - apply andb_prop in Hhost as [Hc Hhost]. unfold not_slash in Hc.
    apply negb_true_iff in Hc. rewrite Hc. now apply IH.
Qed.

Lemma getImageUrl_nonempty (p : string) :
  p <> "" ->
  getImageUrl p
  = if Str.startsWith "http" p
    then if Str.includes "localhost" p || Str.includes "127.0.0.1" p
         then replace_http_origin getBackendUrl p
         else p
    else if Str.startsWith "/uploads/" p then getBackendUrl ++ p
    else if Str.startsWith "uploads/" p then getBackendUrl ++ "/" ++ p
    else getBackendUrl ++ "/uploads/" ++ p.
Proof.
  intro H. unfold getImageUrl.
  destruct (String.eqb_spec p ""); [contradiction | reflexivity].
Qed.

Lemma starts_http_not_uploads (p : string) :
  Str.startsWith "http" p = true ->
  Str.startsWith "/uploads/" p = false /\ Str.startsWith "uploads/" p = false.
Proof.
  destruct p as [|c p]; [discriminate|].
  unfold Str.startsWith.
  destruct c as [[] [] [] [] [] [] [] []]; simpl; intro H;
    try discriminate H; split; reflexivity.
Qed.

Lemma absolute_from_backend (rest : string) :
  is_absolute (getBackendUrl ++ rest) = true.
Proof. reflexivity. Qed.

End ImageUrlFacts.

(** C9 (as stated, refuted). The empty path is answered with the empty
    string, which is no absolute URL; and a path whose origin is localhost
    under the https scheme comes back with that origin in place. *)
Lemma C9_not_always_absolute_or_rewritten :
  getImageUrl "" = ""
  /\ is_absolute (getImageUrl "") = false
  /\ getImageUrl "https://localhost:3000/uploads/a.png"
     = "https://localhost:3000/uploads/a.png".
Proof. repeat split. Qed.

(** C9 (amended). The empty path gives the empty string.  For a non-empty
    path: one that starts with "/uploads/" is appended to the base URL as it
    is; one that starts with "uploads/" is appended after a "/"; one that
    starts with neither of them nor with "http" is appended after
    "/uploads/"; in these three cases the result is an absolute URL under the
    base URL.  A path that starts with "http" and contains neither
    "localhost" nor "127.0.0.1" is returned as it is; one of the form
    "http://" host rest that contains "localhost" or "127.0.0.1" gets the
    base URL in place of "http://" host. *)
Theorem C9_image_url_cases (p : string) :
  p <> "" ->
  getImageUrl "" = ""
  /\ (Str.startsWith "/uploads/" p = true -> getImageUrl p = getBackendUrl ++ p)
  /\ (Str.startsWith "uploads/" p = true -> getImageUrl p = getBackendUrl ++ "/" ++ p)
  /\ (Str.startsWith "http" p = false ->
      Str.startsWith "/uploads/" p = false ->
      Str.startsWith "uploads/" p = false ->
      getImageUrl p = getBackendUrl ++ "/uploads/" ++ p)
  /\ (Str.startsWith "http" p = false ->
      is_absolute (getImageUrl p) = true
      /\ Str.startsWith getBackendUrl (getImageUrl p) = true)
  /\ (Str.startsWith "http" p = true ->
      Str.includes "localhost" p = false ->
      Str.includes "127.0.0.1" p = false ->
      getImageUrl p = p)
  /\ (forall host rest,
        p = "http://" ++ host ++ rest ->
        host <> "" ->
        Str.all_chars not_slash host = true ->
        rest = "" \/ Str.head rest = Some slash ->
        Str.includes "localhost" p = true \/ Str.includes "127.0.0.1" p = true ->
        getImageUrl p = getBackendUrl ++ rest).
Proof.
  intro Hne. pose proof (getImageUrl_nonempty p Hne) as Hg.
  split; [reflexivity|].
  split.
  { intro Hu. rewrite Hg, Hu.
    destruct (Str.startsWith "http" p) eqn:Hh; [|reflexivity].
    apply starts_http_not_uploads in Hh as [Hh _]. congruence. }
  split.
  { intro Hu. rewrite Hg, Hu.
    destruct (Str.startsWith "http" p) eqn:Hh.
    - apply starts_http_not_uploads in Hh as [_ Hh]. congruence.
    - destruct (Str.startsWith "/uploads/" p) eqn:Hs; [|reflexivity].
      destruct p as [|c p]; [discriminate|].
      unfold Str.startsWith in Hs, Hu.
      destruct c as [[] [] [] [] [] [] [] []]; simpl in Hs, Hu;
        try discriminate Hs; discriminate Hu. }
  split.
  { intros Hh Hs Hu. now rewrite Hg, Hh, Hs, Hu. }
  split.
  { intro Hh. rewrite Hg, Hh.
    destruct (Str.startsWith "/uploads/" p); [split; reflexivity|].
    destruct (Str.startsWith "uploads/" p); split; reflexivity. }
  split.
  { intros Hh Hl H1. now rewrite Hg, Hh, Hl, H1. }
  intros host rest Hp Hhost Hall Hrest Hin.
  rewrite Hg.
  assert (Hh : Str.startsWith "http" p = true) by (rewrite Hp; reflexivity).
  assert (Hor : Str.includes "localhost" p || Str.includes "127.0.0.1" p = true).
  { destruct Hin as [-> | ->]; [reflexivity | apply orb_true_r]. }
  rewrite Hh, Hor. rewrite Hp.
  destruct host as [|c host]; [congruence|].
  simpl in Hall. apply andb_prop in Hall as [Hc Hall].
  unfold not_slash in Hc. apply negb_true_iff in Hc.
  cbn [replace_http_origin append]. unfold match_http_origin.
  cbn [Str.strip_prefix Ascii.eqb Bool.eqb append]. rewrite Hc.
  f_equal. now apply drop_non_slash_host.
Qed.

Lemma C9_image_url_cases_witness :
  "http://localhost:3000/uploads/a.png" <> ""
  /\ getImageUrl "http://localhost:3000/uploads/a.png"
     = "https://dummy-bac.onrender.com/uploads/a.png"
  /\ getImageUrl "/uploads/a.png" = "https://dummy-bac.onrender.com/uploads/a.png".
Proof.
  split; [discriminate|]. split.
  - destruct (C9_image_url_cases "http://localhost:3000/uploads/a.png")
      as (_ & _ & _ & _ & _ & _ & Hrewrite); [discriminate|].
    apply (Hrewrite "localhost:3000" "/uploads/a.png");
      try reflexivity; try discriminate; [right | left]; reflexivity.
  - destruct (C9_image_url_cases "/uploads/a.png") as (_ & Hup & _); [discriminate|].
    apply Hup. reflexivity.
Defined.

(** ** The one-shot run agrees with the two-phase run *)

Section Coherence.

Lemma nth_error_snoc {A} (l : list A) (x : A) :
nth_error (l ++ [x]) (List.length l) = Some x.
Proof. induction l as [|y l IH]; simpl; [reflexivity | exact IH]. Qed.

(** Starting a fetch and letting its network call settle with what the
  network answers writes exactly the effects of [fetchOrders] to the log. *)
Lemma fetchOrders_two_phases (captured : bool) (env : Env) (s : Screen) :
let started := begin_fetch captured env s in
let settled :=
  match fetchOrders_request env with
  | inl _ => started
  | inr req => settle_fetch (List.length (in_flight s)) (axios_get env req) started
  end in
log settled = (log s ++ fetchOrders captured env)%list.
Proof.
unfold begin_fetch, fetchOrders.
destruct (fetchOrders_request env) as [e|req]; cbn zeta.
- apply log_perform_all.
- unfold settle_fetch.
  assert (Hfl : in_flight (perform (with_in_flight s
                   (in_flight s ++ [mkInFlight captured req])%list) (AxiosGet req))
                = (in_flight s ++ [mkInFlight captured req])%list) by reflexivity.
  rewrite Hfl, nth_error_snoc, log_perform_all. cbn [closure_refreshing].
  cbn [log with_in_flight perform with_log]. rewrite <- app_assoc. reflexivity.
Qed.

End Coherence.

(* ================================================================== *)
(** * Further properties of the screen *)

(** ** Status codes, labels and badges *)

Section StatusFacts.

Lemma lower_char_idem (c : ascii) : Str.lower_char (Str.lower_char c) = Str.lower_char c.
Proof. destruct c as [[] [] [] [] [] [] [] []]; reflexivity. Qed.

Lemma toLowerCase_idem (s : string) :
  Str.toLowerCase (Str.toLowerCase s) = Str.toLowerCase s.
Proof.
  induction s as [|c s IH]; simpl; [reflexivity|].
  now rewrite lower_char_idem, IH.
Qed.

Lemma lower_underscore_free (c : ascii) :
  Str.is_space c = false -> Str.is_space (Str.lower_char c) = false.
Proof. intro H. now rewrite StrFacts.is_space_lower_char. Qed.

(** Lower-casing commutes with the replacement of whitespace runs. *)
Lemma toLowerCase_replace_ws_go (s : string) : forall in_run,
  Str.toLowerCase (Str.replace_ws_go in_run s)
  = Str.replace_ws_go in_run (Str.toLowerCase s).
Proof.
  induction s as [|c s IH]; intro in_run; simpl; [reflexivity|].
  rewrite StrFacts.is_space_lower_char.
  destruct (Str.is_space c); [destruct in_run|]; simpl; now rewrite IH.
Qed.

(** One character of a plain code survives badge text and normalisation. *)
Lemma plain_char_round_trip (c : ascii) :
  Str.is_ascii c && negb (Str.is_space c) && negb (Str.is_upper c) = true ->
  Str.toLowerCase (Str.upper_units (if Ascii.eqb c "_" then " "%char else c))
  = String (if Ascii.eqb c "_" then " "%char else c) EmptyString.
Proof.
  destruct c as [[] [] [] [] [] [] [] []]; intro H;
    solve [reflexivity | discriminate H].
Qed.

Lemma lower_upper_plain (s : string) : forall after,
  Str.plain_code after s = true ->
  Str.toLowerCase (Str.toUpperCase (Str.replace_underscores s))
  = Str.replace_underscores s.
Proof.
  induction s as [|c s IH]; intros after H; [reflexivity|].
  simpl in H. apply andb_prop in H as [H Hrest]. apply andb_prop in H as [H _].
  simpl. rewrite StrFacts.toLowerCase_app, (plain_char_round_trip c H).
  simpl. f_equal. exact (IH _ Hrest).
Qed.

Lemma replace_ws_plain (s : string) : forall after,
  Str.plain_code after s = true ->
  Str.replace_ws_go after (Str.replace_underscores s) = s.
Proof.
  induction s as [|c s IH]; intros after H; [reflexivity|].
  simpl in H. apply andb_prop in H as [H Hrest]. apply andb_prop in H as [H Hdouble].
  apply andb_prop in H as [H _]. apply andb_prop in H as [_ Hsp].
  apply negb_true_iff in Hsp. apply negb_true_iff in Hdouble.
  simpl. destruct (Ascii.eqb_spec c "_") as [->|Hc].
  - rewrite andb_true_r in Hdouble. subst after. simpl.
    f_equal. exact (IH true Hrest).
  - rewrite Hsp. f_equal. exact (IH false Hrest).
Qed.

Lemma filter_idem {A} (p : A -> bool) (l : list A) :
  filter p (filter p l) = filter p l.
Proof.
  induction l as [|x l IH]; simpl; [reflexivity|].
  destruct (p x) eqn:E; simpl; [rewrite E, IH|]; auto.
Qed.

Lemma filter_length_le {A} (p : A -> bool) (l : list A) :
  List.length (filter p l) <= List.length l.
Proof.
  induction l as [|x l IH]; simpl; [lia|]. destruct (p x); simpl; lia.
Qed.

Lemma in_filteredOrders (orders : list Order) (label : string) (o : Order) :
  label <> "All" ->
  In o (filteredOrders orders label)
  <-> In o orders /\ get_field o "status" = JStr (statusOfFilter label).
Proof.
  intro Hne. rewrite filteredOrders_other by exact Hne.
  rewrite filter_In, strict_eq_str_spec. reflexivity.
Qed.

End StatusFacts.

Ltac case_statuses :=
  repeat match goal with
         | |- context [String.eqb ?a ?b] =>
             destruct (String.eqb_spec a b) as [->|?]
         end.

Ltac pick_member H :=
  simpl in H;
  repeat match type of H with
         | _ \/ _ => destruct H as [H|H]
         end;
  try contradiction; try subst.

(** X1. The six status filters and the six status codes of the badge
    correspond one to one: a filter label other than "All" normalises to a
    known code whose badge text is that label, and the badge text of a known
    code is a filter label that normalises back to the code. *)
Theorem X1_labels_and_codes_correspond :
  (forall label, In label orderFilters -> label <> "All" ->
     In (statusOfFilter label) knownStatuses
     /\ getStatusText (statusOfFilter label) = label)
  /\ (forall code, In code knownStatuses ->
        In (getStatusText code) orderFilters
        /\ getStatusText code <> "All"
        /\ statusOfFilter (getStatusText code) = code).
Proof.
  split.
  - intros label Hin Hne. pick_member Hin; split; try reflexivity; simpl; tauto.
  - intros code Hin. pick_member Hin;
      (split; [simpl; tauto | split; [discriminate | reflexivity]]).
Qed.

Lemma X1_labels_and_codes_correspond_witness :
  getStatusText (statusOfFilter "Out for Delivery") = "Out for Delivery"
  /\ statusOfFilter (getStatusText "cancelled") = "cancelled".
Proof.
  destruct X1_labels_and_codes_correspond as [Hl Hc]. split.
  - apply Hl; [simpl; tauto | discriminate].
  - apply Hc. simpl; tauto.
Defined.

(** X2. For every status code written in lower-case ASCII without whitespace
    and without two underscores in a row, known to the badge or not, the
    badge text normalises back to the code: the fallback text of an
    unrecognised code (underscores to spaces, upper case) loses nothing. *)
Theorem X2_badge_text_normalises_back (code : string) :
  Str.plain_code false code = true ->
  statusOfFilter (getStatusText code) = code.
Proof.
  intro H. unfold getStatusText. case_statuses; try reflexivity.
  unfold statusOfFilter, Str.replace_ws_runs.
  rewrite (lower_upper_plain code false H).
  exact (replace_ws_plain code false H).
Qed.

Lemma X2_badge_text_normalises_back_witness :
  Str.plain_code false "refund_initiated" = true
  /\ getStatusText "refund_initiated" = "REFUND INITIATED"
  /\ statusOfFilter (getStatusText "refund_initiated") = "refund_initiated".
Proof.
  split; [reflexivity|]. split; [reflexivity|].
  apply (X2_badge_text_normalises_back "refund_initiated"). reflexivity.
Defined.

(** X3. Normalising a label is idempotent and blind to letter case: a status
    code is its own normalisation, and a label and its lower-cased form
    select the same status. *)
Theorem X3_statusOfFilter_idempotent (label : string) :
  statusOfFilter (statusOfFilter label) = statusOfFilter label
  /\ statusOfFilter (Str.toLowerCase label) = statusOfFilter label.
Proof.
  unfold statusOfFilter, Str.replace_ws_runs. split.
  - rewrite toLowerCase_replace_ws_go, toLowerCase_idem.
    apply StrFacts.replace_ws_go_no_space, StrFacts.replace_ws_go_clean.
  - now rewrite toLowerCase_idem.
Qed.

(** X4. Filtering the visible list again by the same label changes nothing,
    and the visible list is never longer than the order list. *)
Theorem X4_filteredOrders_idempotent (orders : list Order) (label : string) :
  filteredOrders (filteredOrders orders label) label = filteredOrders orders label
  /\ List.length (filteredOrders orders label) <= List.length orders.
Proof.
  unfold filteredOrders. destruct (String.eqb label "All").
  - split; [reflexivity | lia].
  - split; [apply filter_idem | apply filter_length_le].
Qed.

(** X5. An order is listed under exactly the status filter that carries the
    text of its badge: with a known status it is visible under the filter
    named [getStatusText status] and under no other status filter; with any
    other status it is visible under none of them. *)
Theorem X5_order_under_its_badge_filter
        (orders : list Order) (o : Order) (status : string) :
  In o orders ->
  get_field o "status" = JStr status ->
  (In status knownStatuses ->
   In o (filteredOrders orders (getStatusText status))
   /\ forall label, In label orderFilters -> label <> "All" ->
                    In o (filteredOrders orders label) ->
                    label = getStatusText status)
  /\ (~ In status knownStatuses ->
      forall label, In label orderFilters -> label <> "All" ->
                    ~ In o (filteredOrders orders label)).
Proof.
  intros Ho Hs. split.
  - intro Hk. split.
    + apply in_filteredOrders.
      * pick_member Hk; discriminate.
      * split; [exact Ho|]. rewrite Hs. f_equal. pick_member Hk; reflexivity.
    + intros label Hl Hne Hin.
      apply in_filteredOrders in Hin as [_ Hst]; [|exact Hne].
      rewrite Hs in Hst. injection Hst as ->.
      pick_member Hl; solve [reflexivity | congruence].
  - intros Hnk label Hl Hne Hin.
    apply in_filteredOrders in Hin as [_ Hst]; [|exact Hne].
    rewrite Hs in Hst. injection Hst as ->. apply Hnk.
    pick_member Hl; solve [congruence | simpl; tauto].
Qed.

Lemma X5_order_under_its_badge_filter_witness :
  let o := [("orderId", JStr "A2"); ("status", JStr "processing"); ("products", JArr [])] in
  In o Sample.sample_orders
  /\ In o (filteredOrders Sample.sample_orders "Processing")
  /\ ~ In o (filteredOrders Sample.sample_orders "Delivered").
Proof.
  intro o.
  assert (Ho : In o Sample.sample_orders) by (simpl; tauto).
  destruct (X5_order_under_its_badge_filter Sample.sample_orders o "processing" Ho eq_refl)
    as [Hknown _].
  destruct Hknown as [Hin Honly]; [simpl; tauto|].
  split; [exact Ho|]. split; [exact Hin|].
  intro Hd. specialize (Honly "Delivered"). 
  assert (E : "Delivered" = getStatusText "processing")
    by (apply Honly; [simpl; tauto | discriminate | exact Hd]).
  discriminate E.
Defined.



(** X7. No filter button is drawn active on the first render (the initial
    filter 'all' is none of the labels); after a filter button was pressed,
    exactly that button is active. *)
Theorem X7_one_active_filter_button (env : Env) (s : Screen) (label : string) :
  mounted s = true -> loading s = false -> In label orderFilters ->
  filter (filterButtonActive (selectedFilter initialScreen)) orderFilters = []
  /\ selectedFilter (step env (SelectFilter label) s) = label
  /\ filter (filterButtonActive (selectedFilter (step env (SelectFilter label) s)))
            orderFilters = [label].
Proof.
  intros Hm Hl Hin. split; [reflexivity|].
  assert (Hex : existsb (String.eqb label) orderFilters = true).
  { apply existsb_exists. exists label. split; [exact Hin | apply String.eqb_refl]. }
  cbn [step]. rewrite Hm, Hl, Hex. cbn [andb negb with_filter selectedFilter].
  split; [reflexivity|]. pick_member Hin; reflexivity.
Qed.

Lemma X7_one_active_filter_button_witness :
  let env := Sample.signed_in Sample.online in
  let s := run env [Mount; Response 0 (inr Sample.ok_response)] initialScreen in
  mounted s = true /\ loading s = false
  /\ filter (filterButtonActive (selectedFilter (step env (SelectFilter "Shipped") s)))
             orderFilters = ["Shipped"].
Proof.
  intros env s. split; [reflexivity|]. split; [reflexivity|].
  apply (X7_one_active_filter_button env s "Shipped"); try reflexivity.
  simpl; tauto.
Defined.

(** X8. The refresh control belongs to the list view only: whenever the
    visible list is empty, a pull gesture has nothing to act on and the
    screen stays as it is.  In particular, under the initial filter 'all'
    no pull is possible unless an order has the status 'all'. *)
Theorem X8_no_pull_on_empty_list (env : Env) (s : Screen) :
  (filteredOrders (orders s) (selectedFilter s) = [] ->
   step env PullToRefresh s = s)
  /\ (selectedFilter s = initialSelectedFilter ->
      (forall o, In o (orders s) -> ~ has_status "all" o) ->
      step env PullToRefresh s = s).
Proof.
  assert (Hempty : filteredOrders (orders s) (selectedFilter s) = [] ->
                   step env PullToRefresh s = s).
  { intro H. cbn [step]. unfold refresh_control_shown. rewrite H.
    cbn [List.length Nat.eqb negb]. now rewrite andb_false_r. }
  split; [exact Hempty|].
  intros Hsel Hnone. apply Hempty. rewrite Hsel.
  apply filter_none. intros o Ho.
  destruct (strict_eq_str (get_field o "status") (statusOfFilter initialSelectedFilter)) eqn:E;
    [|reflexivity].
  exfalso. apply (Hnone o Ho). now apply strict_eq_str_spec.
Qed.

Lemma X8_no_pull_on_empty_list_witness :
  let env := Sample.signed_in Sample.online in
  let s := run env [Mount; Response 0 (inr Sample.ok_response)] initialScreen in
  orders s <> [] /\ step env PullToRefresh s = s.
Proof.
  intros env s. split; [discriminate|].
  destruct (X8_no_pull_on_empty_list env s) as [Hempty _].
  apply Hempty. reflexivity.
Defined.

(** ** Requests, normalised records and product rows *)

Section RecordFacts.

Lemma set_set_same (o : JsObject) (k : string) (v : JsVal) :
  set_field (set_field o k v) k v = set_field o k v.
Proof.
  induction o as [|[k' v'] o IH]; simpl.
  - now rewrite String.eqb_refl.
  - destruct (String.eqb k' k) eqn:E; simpl; rewrite E; [reflexivity | now rewrite IH].
Qed.

Lemma js_or_default_idem (v : JsVal) :
  js_or (js_or v (JArr [])) (JArr []) = js_or v (JArr []).
Proof. unfold js_or. destruct (truthy v) eqn:E; [now rewrite E | reflexivity]. Qed.

Lemma truthy_item_text (v : option string) :
  truthy_item v = true -> v = Some (item_text v) /\ item_text v <> "".
Proof.
  destruct v as [t|]; simpl; [|discriminate]. intro H. split; [reflexivity|].
  intros ->. discriminate H.
Qed.

Lemma normalizeOrder_present (v : JsVal) (o : Order) :
  normalizeOrder v = inr o -> products_present o.
Proof.
  unfold normalizeOrder. destruct (get_prop v "products") as [e|p]; simpl; [discriminate|].
  intro H. inversion H; subst. unfold products_present.
  rewrite get_set_same. apply js_or_present.
Qed.

End RecordFacts.

(** X9. A request is built only from usable credentials: its bearer token is
    a non-empty string, taken from [userToken] when that is usable and from
    [authToken] only otherwise; the stored profile is non-empty and parses;
    the customer in the URL is the profile's [_id] when that is truthy and
    its [id] otherwise; the URL lies under the backend's customer-orders
    path. *)
Theorem X9_request_from_credentials (env : Env) (req : Request) :
  fetchOrders_request env = inr req ->
  exists token profile userData _id,
    token <> "" /\ profile <> ""
    /\ (getItem env "userToken" = inr (Some token)
        \/ (exists t1, getItem env "userToken" = inr t1 /\ truthy_item t1 = false
                       /\ getItem env "authToken" = inr (Some token)))
    /\ getItem env "userProfile" = inr (Some profile)
    /\ JSON_parse env profile = inr userData
    /\ get_prop userData "_id" = inr _id
    /\ ((truthy _id = true /\ url_customer req = _id)
        \/ (truthy _id = false /\ get_prop userData "id" = inr (url_customer req)))
    /\ url_prefix req = "https://dummy-bac.onrender.com/api/orders/customer/"
    /\ authorization req = "Bearer " ++ token.
Proof.
  unfold fetchOrders_request.
  destruct (getItem env "userToken") as [e|t1] eqn:H1; simpl; [discriminate|].
  set (tok := if truthy_item t1 then ret t1 else getItem env "authToken").
  destruct tok as [e|token] eqn:Htok; simpl; [discriminate|].
  destruct (getItem env "userProfile") as [e|profile] eqn:Hp; simpl; [discriminate|].
  destruct (truthy_item token) eqn:Ht; simpl; [|discriminate].
  destruct (truthy_item profile) eqn:Hpr; simpl; [|discriminate].
  destruct (JSON_parse env (item_text profile)) as [e|userData] eqn:Hj; simpl; [discriminate|].
  destruct (get_prop userData "_id") as [e|_id] eqn:Hid; simpl; [discriminate|].
  destruct (truthy_item_text token Ht) as [Etok Htne].
  destruct (truthy_item_text profile Hpr) as [Epro Hpne].
  intro Hreq.
  exists (item_text token), (item_text profile), userData, _id.
  split; [exact Htne|]. split; [exact Hpne|].
  split.
  { unfold tok in Htok. destruct (truthy_item t1) eqn:Ht1.
    - left. inversion Htok; subst. now rewrite <- Etok.
    - right. exists t1. split; [reflexivity|]. split; [exact Ht1|].
      now rewrite Htok, <- Etok. }
  split; [now rewrite <- Epro|]. split; [exact Hj|]. split; [exact Hid|].
  destruct (truthy _id) eqn:Hty.
  - inversion Hreq; subst. simpl. split; [left; split; reflexivity|]. split; reflexivity.
  - destruct (get_prop userData "id") as [e|customer] eqn:Hc; simpl in Hreq; [discriminate|].
    inversion Hreq; subst. simpl.
    split; [right; split; reflexivity|]. split; reflexivity.
Qed.

Lemma X9_request_from_credentials_witness :
  exists req,
    fetchOrders_request (Sample.signed_in Sample.online) = inr req
    /\ authorization req = "Bearer tok"
    /\ url_customer req = JStr "u1".
Proof.
  eexists. split; [reflexivity|].
  destruct (X9_request_from_credentials (Sample.signed_in Sample.online) _ eq_refl)
    as (token & profile & userData & _id & _ & _ & _ & _ & _ & _ & _ & _ & Hauth).
  split; reflexivity.
Defined.

(** X10. Normalising a record that is already normalised gives it back
    unchanged, field order included. *)
Theorem X10_normalizeOrder_idempotent (v : JsVal) (o : Order) :
  normalizeOrder v = inr o -> normalizeOrder (JObj o) = inr o.
Proof.
  unfold normalizeOrder. destruct (get_prop v "products") as [e|p]; simpl; [discriminate|].
  intro H. inversion H; subst. unfold ret. f_equal.
  rewrite get_set_same, js_or_default_idem. apply set_set_same.
Qed.

Lemma X10_normalizeOrder_idempotent_witness :
  normalizeOrder (JObj Sample.raw_A1)
  = inr (Sample.raw_A1 ++ [("products", JArr [])])%list
  /\ normalizeOrder (JObj (Sample.raw_A1 ++ [("products", JArr [])])%list)
     = inr (Sample.raw_A1 ++ [("products", JArr [])])%list.
Proof.
  split; [reflexivity|].
  apply (X10_normalizeOrder_idempotent (JObj Sample.raw_A1)). reflexivity.
Defined.

(** X11. Product rows: for an order whose [products] is an array, the rows
    are its first products, at most two, and together with the number on the
    "+N more items" line they account for every product; that line is drawn
    exactly when there are more than two.  An order that arrived without
    [products] (missing or null) gets no row and no extra line instead of a
    failure. *)
Theorem X11_product_rows (item : Order) (products : list JsVal) :
  get_field item "products" = JArr products ->
  (exists rows rest,
      shownProducts item = inr rows
      /\ products = (rows ++ rest)%list
      /\ List.length rows <= 2
      /\ List.length rows + moreItemsCount products = List.length products
      /\ (moreItems products = None <-> List.length products <= 2))
  /\ (forall raw o,
        normalizeOrder (JObj raw) = inr o ->
        get_field raw "products" = JUndefined \/ get_field raw "products" = JNull ->
        shownProducts o = inr [] /\ moreItems [] = None).
Proof.
  intro Hp. split.
  - exists (firstn 2 products), (skipn 2 products).
    unfold shownProducts. rewrite Hp.
    split; [reflexivity|]. split; [symmetry; apply firstn_skipn|].
    split; [apply firstn_le_length|].
    unfold moreItemsCount, moreItems. rewrite length_firstn.
    destruct (Nat.ltb_spec 2 (List.length products)); split; try lia.
    + split; [discriminate | lia].
    + split; [lia | reflexivity].
  - intros raw o Hn Hmiss. unfold normalizeOrder in Hn. simpl in Hn.
    inversion Hn; subst. unfold shownProducts. rewrite get_set_same.
    destruct Hmiss as [-> | ->]; split; reflexivity.
Qed.

Lemma X11_product_rows_witness :
  let item := [("orderId", JStr "A9");
               ("products", JArr [JStr "p1"; JStr "p2"; JStr "p3"; JStr "p4"])] in
  shownProducts item = inr [JStr "p1"; JStr "p2"]
  /\ 2 + moreItemsCount [JStr "p1"; JStr "p2"; JStr "p3"; JStr "p4"] = 4.
Proof.
  intro item.
  destruct (X11_product_rows item [JStr "p1"; JStr "p2"; JStr "p3"; JStr "p4"] eq_refl)
    as [(rows & rest & Hrows & _ & _ & Hsum & _) _].
  split; [reflexivity | reflexivity].
Defined.

(** ** Invariants of the running screen *)

Section RunFacts.

Lemma perform_all_app (a b : list Effect) (s : Screen) :
  perform_all s (a ++ b) = perform_all (perform_all s a) b.
Proof. unfold perform_all. apply fold_left_app. Qed.

(** Whatever the body did, [finally] leaves both flags off. *)
Lemma flags_after_settle (s : Screen) (r : bool) (body : Exc (list Effect)) :
  loading (perform_all s (fetchOrders_settle r body)) = false
  /\ refreshing (perform_all s (fetchOrders_settle r body)) = false.
Proof.
  unfold fetchOrders_settle. rewrite perform_all_app.
  split; reflexivity.
Qed.

Lemma cells_perform_other (s : Screen) (e : Effect) :
  is_setter e = false ->
  orders (perform s e) = orders s
  /\ loading (perform s e) = loading s
  /\ refreshing (perform s e) = refreshing s.
Proof. destruct e; simpl; intro H; try discriminate H; repeat split. Qed.

Lemma log_begin_fetch (captured : bool) (env : Env) (s : Screen) :
  log (begin_fetch captured env s)
  = (log s ++ match fetchOrders_request env with
              | inl e => fetchOrders_settle captured (inl e)
              | inr req => [AxiosGet req]
              end)%list.
Proof.
  unfold begin_fetch. destruct (fetchOrders_request env) as [e|req].
  - apply log_perform_all.
  - reflexivity.
Qed.

Lemma log_settle_fetch (i : nat) (outcome : Exc JsVal) (s : Screen) :
  log (settle_fetch i outcome s)
  = (log s ++ match nth_error (in_flight s) i with
              | Some f => fetchOrders_settle (closure_refreshing f)
                                             (bind outcome fetchOrders_response)
              | None => []
              end)%list.
Proof.
  unfold settle_fetch. destruct (nth_error (in_flight s) i) as [f|].
  - now rewrite log_perform_all.
  - now rewrite app_nil_r.
Qed.

(** What one settled run adds to the log: no network call, and an alert only
    together with a console error. *)
Lemma settle_effects (r : bool) (outcome : Exc JsVal) :
  let es := fetchOrders_settle r (bind outcome fetchOrders_response) in
  count is_network_call es = 0
  /\ count is_alert es <= count is_console_error es.
Proof.
  destruct outcome as [e|data]; cbn [bind].
  - destruct r; split; unfold count; simpl; lia.
  - destruct (fetchOrders_response_shape data) as [e | ? ? ? | ? ? ? ? ? ? ?].
    + destruct r; split; unfold count; simpl; lia.
    + split; unfold count; simpl; lia.
    + split; unfold count; simpl; lia.
Qed.

Lemma settle_error_effects (r : bool) (e : JsError) :
  let es := fetchOrders_settle r (inl e) in
  count is_network_call es = 0
  /\ count is_alert es <= count is_console_error es.
Proof. destruct r; split; unfold count; simpl; lia. Qed.

Lemma orders_begin_fetch (captured : bool) (env : Env) (s : Screen) :
  orders (begin_fetch captured env s) = orders s.
Proof.
  unfold begin_fetch. destruct (fetchOrders_request env) as [e|req].
  - apply orders_after_error.
  - reflexivity.
Qed.

Lemma orders_settle_fetch (i : nat) (outcome : Exc JsVal) (s : Screen) :
  orders (settle_fetch i outcome s) = orders s
  \/ exists items, mapM normalizeOrder items = inr (orders (settle_fetch i outcome s)).
Proof.
  unfold settle_fetch. destruct (nth_error (in_flight s) i) as [f|]; [|now left].
  set (s0 := with_in_flight s (remove_nth i (in_flight s))).
  change (orders s) with (orders s0).
  destruct outcome as [e|data]; cbn [bind].
  - left. apply orders_after_error.
  - destruct (fetchOrders_response_shape data) as [e | ? ? ? | ? items l ? ? ? Hm].
    + left. apply orders_after_error.
    + left. apply orders_after_nothing.
    + right. exists items. now rewrite orders_after_success.
Qed.

Lemma loading_begin_fetch (captured : bool) (env : Env) (s : Screen) :
  loading s = false -> loading (begin_fetch captured env s) = false.
Proof.
  intro H. unfold begin_fetch. destruct (fetchOrders_request env) as [e|req].
  - apply flags_after_settle.
  - exact H.
Qed.

(** A started fetch is pending, or it has already switched the spinner off. *)
Lemma refreshing_begin_fetch (captured : bool) (env : Env) (s : Screen) :
  refreshing (begin_fetch captured env s) = true ->
  in_flight (begin_fetch captured env s) <> [].
Proof.
  unfold begin_fetch. destruct (fetchOrders_request env) as [e|req].
  - intro H. destruct (flags_after_settle s captured (inl e)) as [_ Hr]. congruence.
  - intros _. simpl. intro H. apply app_eq_nil in H as [_ H]. discriminate H.
Qed.

Lemma length_remove_nth {A} (i : nat) (l : list A) (x : A) :
  nth_error l i = Some x -> S (List.length (remove_nth i l)) = List.length l.
Proof.
  revert i. induction l as [|y l IH]; intros [|i] H; simpl in *; try discriminate.
  - unfold remove_nth. simpl. reflexivity.
  - unfold remove_nth in *. simpl. f_equal. now apply IH.
Qed.

End RunFacts.

(** X12. No retry: when the network call of a pending fetch settles, with
    any outcome, no further network call is made and the fetch leaves the
    pending list, which gets shorter by one. *)
Theorem X12_settling_never_retries
        (s : Screen) (i : nat) (f : InFlight) (outcome : Exc JsVal) :
  nth_error (in_flight s) i = Some f ->
  let s' := settle_fetch i outcome s in
  count is_network_call (log s') = count is_network_call (log s)
  /\ S (List.length (in_flight s')) = List.length (in_flight s)
  /\ loading s' = false /\ refreshing s' = false.
Proof.
  intros Hf s'. unfold s'. split; [|split].
  - rewrite log_settle_fetch, Hf, count_app.
    destruct (settle_effects (closure_refreshing f) outcome) as [H0 _].
    rewrite H0. lia.
  - unfold settle_fetch. rewrite Hf.
    match goal with
    | |- context [perform_all ?s0 ?es] =>
        destruct (frame_perform_all es s0) as (_ & _ & H3 & _); rewrite H3
    end.
    simpl. now apply length_remove_nth with f.
  - unfold settle_fetch. rewrite Hf. apply flags_after_settle.
Qed.

Lemma X12_settling_never_retries_witness :
  let env := Sample.signed_in Sample.offline in
  let s := step env Mount initialScreen in
  let s' := settle_fetch 0 (inl (Rejected "Network Error")) s in
  List.length (in_flight s) = 1
  /\ count is_network_call (log s') = 1
  /\ List.length (in_flight s') = 0.
Proof.
  intros env s s'.
  destruct (X12_settling_never_retries s 0 _ (inl (Rejected "Network Error")) eq_refl)
    as (Hc & Hl & _).
  split; [reflexivity|]. split; [exact Hc|]. 
  fold s' in Hl. change (List.length (in_flight s)) with 1 in Hl. now inversion Hl.
Defined.

(** X13. On every run the network calls are at most as many as the mounts,
    timer ticks and pull gestures that happened: each of these starts at most
    one request, and nothing else starts any. *)
Theorem X13_one_request_per_trigger (env : Env) (evs : list Event) :
  count is_network_call (log (run env evs initialScreen))
  <= List.length (filter is_trigger evs).
Proof.
  assert (Hstep : forall ev s,
             count is_network_call (log (step env ev s))
             <= count is_network_call (log s) + (if is_trigger ev then 1 else 0)).
  { assert (Hb : forall c s,
               count is_network_call (log (begin_fetch c env s))
               <= count is_network_call (log s) + 1).
    { intros c s. rewrite log_begin_fetch, count_app.
      destruct (fetchOrders_request env) as [e|req].
      - destruct (settle_error_effects c e) as [H0 _]. rewrite H0. lia.
      - unfold count. simpl. lia. }
    intros ev s. destruct ev; cbn [step is_trigger].
    - destruct (lifecycle s); try lia.
      change (log (with_lifecycle ?x _ _)) with (log x).
      etransitivity; [apply Hb|]. simpl. lia.
    - destruct (interval s); [apply Hb | lia].
    - destruct (refresh_control_shown s); [|lia].
      etransitivity; [apply Hb|]. rewrite log_perform, count_app.
      unfold count. simpl. lia.
    - rewrite log_settle_fetch, count_app.
      destruct (nth_error (in_flight s) i) as [f|].
      + destruct (settle_effects (closure_refreshing f) outcome) as [H0 _].
        rewrite H0. lia.
      + unfold count. simpl. lia.
    - destruct (mounted s && negb (loading s) && existsb (String.eqb label) orderFilters);
        simpl; lia.
    - destruct (mounted s); simpl; lia. }
  assert (Hrun : forall s,
             count is_network_call (log (run env evs s))
             <= count is_network_call (log s) + List.length (filter is_trigger evs)).
  { unfold run. induction evs as [|ev evs' IH]; intro s; simpl; [lia|].
    specialize (IH (step env ev s)). specialize (Hstep ev s).
    destruct (is_trigger ev); simpl; lia. }
  apply (Hrun initialScreen).
Qed.

(** X14. On every run, alerts never outnumber logged errors: the alert is
    raised only inside the [catch] block, after [console.error]. *)
Theorem X14_alert_only_with_logged_error (env : Env) (evs : list Event) :
  count is_alert (log (run env evs initialScreen))
  <= count is_console_error (log (run env evs initialScreen)).
Proof.
  assert (Hb : forall c s,
             count is_alert (log s) <= count is_console_error (log s) ->
             count is_alert (log (begin_fetch c env s))
             <= count is_console_error (log (begin_fetch c env s))).
  { intros c s H. rewrite log_begin_fetch, !count_app.
    destruct (fetchOrders_request env) as [e|req].
    - destruct (settle_error_effects c e) as [_ H1]. simpl in H1. lia.
    - unfold count at 2 4. simpl. lia. }
  assert (Hstep : forall ev s,
             count is_alert (log s) <= count is_console_error (log s) ->
             count is_alert (log (step env ev s))
             <= count is_console_error (log (step env ev s))).
  { intros ev s H. destruct ev; cbn [step].
    - destruct (lifecycle s); try exact H.
      change (log (with_lifecycle ?x _ _)) with (log x). apply Hb. exact H.
    - destruct (interval s); [now apply Hb | exact H].
    - destruct (refresh_control_shown s); [|exact H].
      apply Hb. rewrite log_perform, !count_app. unfold count at 2 4. simpl. lia.
    - rewrite log_settle_fetch, !count_app.
      destruct (nth_error (in_flight s) i) as [f|].
      + destruct (settle_effects (closure_refreshing f) outcome) as [_ H1].
        simpl in H1. lia.
      + unfold count at 2 4. simpl. lia.
    - destruct (mounted s && negb (loading s) && existsb (String.eqb label) orderFilters);
        exact H.
    - destruct (mounted s); exact H. }
  assert (Hrun : forall s,
             count is_alert (log s) <= count is_console_error (log s) ->
             count is_alert (log (run env evs s))
             <= count is_console_error (log (run env evs s))).
  { unfold run. induction evs as [|ev evs' IH]; intros s H; simpl; [exact H|].
    apply IH. now apply Hstep. }
  apply Hrun. unfold count. simpl. lia.
Qed.

Section LifecycleFacts.

Lemma timer_step (env : Env) (ev : Event) (s : Screen) :
  tick_invariant s -> timer_matches_lifecycle_at s ->
  timer_matches_lifecycle_at (step env ev s).
Proof.
  unfold timer_matches_lifecycle_at, mounted. intros [Hfresh _] Ht.
  destruct ev; cbn [step].
  - destruct (lifecycle s) eqn:Hl; try (rewrite Hl; exact Ht).
    destruct (Hfresh eq_refl) as (Hr & _ & _). simpl. now rewrite Hr.
  - destruct (interval s) as [c|] eqn:Hi; [|now rewrite Hi].
    destruct (frame_begin_fetch c env s) as (H1 & H2 & _).
    now rewrite H1, H2, Hi.
  - destruct (refresh_control_shown s); [|exact Ht].
    destruct (frame_begin_fetch (refreshing s) env (perform s (SetRefreshing true)))
      as (H1 & H2 & _).
    rewrite H1, H2. exact Ht.
  - destruct (frame_settle_fetch i outcome s) as (H1 & H2 & _).
    now rewrite H1, H2.
  - destruct (_ && _ && _); exact Ht.
  - unfold mounted. destruct (lifecycle s) eqn:Hl; try (rewrite Hl; exact Ht).
    reflexivity.
Qed.

Lemma timer_run (env : Env) (evs : list Event) : forall s,
  tick_invariant s -> timer_matches_lifecycle_at s ->
  timer_matches_lifecycle_at (run env evs s).
Proof.
  unfold run. induction evs as [|ev evs IH]; intros s Hi Ht; simpl; [exact Ht|].
  apply IH; [now apply tick_invariant_step | now apply timer_step].
Qed.

Lemma loading_step (env : Env) (ev : Event) (s : Screen) :
  loading s = false -> loading (step env ev s) = false.
Proof.
  intro H. destruct ev; cbn [step].
  - destruct (lifecycle s); try exact H.
    change (loading (with_lifecycle ?x _ _)) with (loading x).
    now apply loading_begin_fetch.
  - destruct (interval s); [now apply loading_begin_fetch | exact H].
  - destruct (refresh_control_shown s); [|exact H]. now apply loading_begin_fetch.
  - unfold settle_fetch. destruct (nth_error (in_flight s) i); [|exact H].
    apply flags_after_settle.
  - destruct (_ && _ && _); exact H.
  - destruct (mounted s); exact H.
Qed.

Lemma spinner_step (env : Env) (ev : Event) (s : Screen) :
  (refreshing s = true -> in_flight s <> []) ->
  refreshing (step env ev s) = true -> in_flight (step env ev s) <> [].
Proof.
  intro H. destruct ev; cbn [step].
  - destruct (lifecycle s); try exact H.
    change (refreshing (with_lifecycle ?x _ _)) with (refreshing x).
    change (in_flight (with_lifecycle ?x _ _)) with (in_flight x).
    apply refreshing_begin_fetch.
  - destruct (interval s); [apply refreshing_begin_fetch | exact H].
  - destruct (refresh_control_shown s); [apply refreshing_begin_fetch | exact H].
  - unfold settle_fetch. destruct (nth_error (in_flight s) i); [|exact H].
    intro Hr.
    match type of Hr with
    | refreshing (perform_all ?s0 (fetchOrders_settle ?r ?b)) = true =>
        destruct (flags_after_settle s0 r b) as [_ Hoff]
    end.
    congruence.
  - destruct (_ && _ && _); exact H.
  - destruct (mounted s); exact H.
Qed.

Lemma products_step (env : Env) (ev : Event) (s : Screen) :
  Forall products_present (orders s) ->
  Forall products_present (orders (step env ev s)).
Proof.
  intro H. destruct ev; cbn [step].
  - destruct (lifecycle s); try exact H.
    change (orders (with_lifecycle ?x _ _)) with (orders x).
    now rewrite orders_begin_fetch.
  - destruct (interval s); [now rewrite orders_begin_fetch | exact H].
  - destruct (refresh_control_shown s); [|exact H]. now rewrite orders_begin_fetch.
  - destruct (orders_settle_fetch i outcome s) as [-> | [items Hm]]; [exact H|].
    apply mapM_Forall2 in Hm. revert Hm.
    generalize (orders (settle_fetch i outcome s)).
    induction items as [|x items IH]; intros l Hm; inversion Hm; subst; constructor.
    + eapply normalizeOrder_present; eassumption.
    + now apply IH.
  - destruct (_ && _ && _); exact H.
  - destruct (mounted s); exact H.
Qed.

Lemma filter_step (env : Env) (ev : Event) (s : Screen) :
  In (selectedFilter s) (initialSelectedFilter :: orderFilters) ->
  In (selectedFilter (step env ev s)) (initialSelectedFilter :: orderFilters).
Proof.
  intro H. destruct ev; cbn [step].
  - destruct (lifecycle s); try exact H.
    change (selectedFilter (with_lifecycle ?x _ _)) with (selectedFilter x).
    destruct (frame_begin_fetch (refreshing s) env (with_lifecycle s Mounted (interval s)))
      as (_ & _ & ->). exact H.
  - destruct (interval s) as [c|]; [|exact H].
    destruct (frame_begin_fetch c env s) as (_ & _ & ->). exact H.
  - destruct (refresh_control_shown s); [|exact H].
    destruct (frame_begin_fetch (refreshing s) env (perform s (SetRefreshing true)))
      as (_ & _ & ->). exact H.
  - destruct (frame_settle_fetch i outcome s) as (_ & _ & ->). exact H.
  - destruct (mounted s && negb (loading s)); cbn [andb]; [|exact H].
    destruct (existsb (String.eqb label) orderFilters) eqn:E; [|exact H].
    apply existsb_exists in E as (x & Hx & Heq). apply String.eqb_eq in Heq. subst x.
    right. exact Hx.
  - destruct (mounted s); exact H.
Qed.

Lemma run_invariant (P : Screen -> Prop) (env : Env) :
  (forall ev s, P s -> P (step env ev s)) ->
  forall evs s, P s -> P (run env evs s).
Proof.
  intros Hstep evs. unfold run.
  induction evs as [|ev evs IH]; intros s H; simpl; [exact H|].
  apply IH, Hstep, H.
Qed.

End LifecycleFacts.

(** X15. On every run the interval is armed exactly while the screen is
    mounted, always with the closure of the first render: fetches, pulls and
    filter presses neither disarm nor re-arm it, and after the unmount it is
    gone. *)
Theorem X15_timer_armed_iff_mounted (env : Env) (evs : list Event) :
  let s := run env evs initialScreen in
  interval s = if mounted s then Some false else None.
Proof.
  apply (timer_run env evs initialScreen).
  - split; [intros _; repeat split | intros c H; discriminate H].
  - reflexivity.
Qed.

(** X16. The loading view never comes back: once [loading] is false, no
    event, be it a tick, a pull or a late response, sets it again. *)
Theorem X16_loading_never_returns (env : Env) (evs : list Event) (s : Screen) :
  loading s = false -> loading (run env evs s) = false.
Proof.
  apply (run_invariant (fun st => loading st = false)).
  intros ev st. apply loading_step.
Qed.

Lemma X16_loading_never_returns_witness :
  let env := Sample.signed_in Sample.offline in
  let s := run env [Mount; Response 0 (inl (Rejected "Network Error"))] initialScreen in
  loading initialScreen = true
  /\ loading s = false
  /\ loading (run env [Tick; Tick; Response 1 (inr Sample.ok_response)] s) = false.
Proof.
  intros env s. split; [reflexivity|]. split; [reflexivity|].
  apply (X16_loading_never_returns env _ s). reflexivity.
Defined.

(** X17. On every run, while the refresh spinner is on a fetch is pending:
    the spinner is switched on only by a pull that starts a fetch, and every
    settled fetch switches it off. *)
Theorem X17_spinner_needs_pending_fetch (env : Env) (evs : list Event) :
  let s := run env evs initialScreen in
  refreshing s = true -> in_flight s <> [].
Proof.
  apply (run_invariant (fun st => refreshing st = true -> in_flight st <> [])).
  - intros ev st. apply spinner_step.
  - intro H. discriminate H.
Qed.

Lemma X17_spinner_needs_pending_fetch_witness :
  let env := Sample.signed_in Sample.online in
  let s := run env [Mount; Response 0 (inr Sample.ok_response);
                    SelectFilter "Processing"; PullToRefresh] initialScreen in
  refreshing s = true /\ in_flight s <> [].
Proof.
  intros env s. split; [reflexivity|].
  apply (X17_spinner_needs_pending_fetch env
           [Mount; Response 0 (inr Sample.ok_response);
            SelectFilter "Processing"; PullToRefresh]).
  reflexivity.
Defined.

(** X18. On every run, every order held by the screen has a [products]
    value that is neither undefined nor null. *)
Theorem X18_stored_orders_have_products (env : Env) (evs : list Event) :
  Forall products_present (orders (run env evs initialScreen)).
Proof.
  apply (run_invariant (fun st => Forall products_present (orders st))).
  - intros ev st. apply products_step.
  - constructor.
Qed.

(** X19. On every run the selected filter is the initial 'all' or one of
    the labels of the filter bar. *)
Theorem X19_selected_filter_is_a_label (env : Env) (evs : list Event) :
  In (selectedFilter (run env evs initialScreen)) (initialSelectedFilter :: orderFilters).
Proof.
  apply (run_invariant
           (fun st => In (selectedFilter st) (initialSelectedFilter :: orderFilters))).
  - intros ev st. apply filter_step.
  - left. reflexivity.
Qed.

(** ** More on image URLs *)

Section ImageUrlMore.

Lemma includes_cons (p : string) (c : ascii) (s : string) :
  Str.includes p (String c s) = false -> Str.includes p s = false.
Proof. simpl. intro H. apply orb_false_iff in H as [_ H]. exact H. Qed.

Lemma includes_head (p s : string) :
  Str.includes p s = false -> Str.startsWith p s = false.
Proof.
  destruct s as [|c s]; simpl; intro H; apply orb_false_iff in H as [H _]; exact H.
Qed.

(** Without an http origin anywhere in the path the rewrite finds nothing. *)
Lemma replace_http_origin_no_match (repl s : string) :
  Str.includes "http://" s = false -> replace_http_origin repl s = s.
Proof.
  induction s as [|c s IH]; intro H; [reflexivity|].
  pose proof (includes_head _ _ H) as Hh.
  cbn [replace_http_origin]. unfold match_http_origin.
  unfold Str.startsWith in Hh.
  destruct (Str.strip_prefix "http://" (String c s)); [discriminate Hh|].
  f_equal. apply IH. now apply includes_cons in H.
Qed.

Lemma replace_http_origin_nonempty (s : string) :
  s <> "" -> replace_http_origin getBackendUrl s <> "".
Proof.
  destruct s as [|c s]; [congruence|]. intros _. cbn [replace_http_origin].
  destruct (match_http_origin (String c s)); discriminate.
Qed.

(** A resolved relative path has no http origin unless the path had one. *)
Lemma no_http_origin_under_backend (p : string) :
  Str.includes "http://" p = false ->
  Str.includes "http://" (getBackendUrl ++ p) = false
  /\ Str.includes "http://" (getBackendUrl ++ "/" ++ p) = false
  /\ Str.includes "http://" (getBackendUrl ++ "/uploads/" ++ p) = false.
Proof.
  intro H. repeat split; cbn; fold (Str.includes "http://" p); rewrite H; reflexivity.
Qed.

End ImageUrlMore.

(** X20. The resolver answers the empty string for the empty path only. *)
Theorem X20_empty_url_only_for_empty_path (p : string) :
  getImageUrl p = "" <-> p = "".
Proof.
  split; [|intros ->; reflexivity].
  intro H. destruct (String.eqb_spec p "") as [Hp|Hp]; [exact Hp|]. exfalso.
  rewrite (getImageUrl_nonempty p Hp) in H.
  destruct (Str.startsWith "http" p).
  - destruct (Str.includes "localhost" p || Str.includes "127.0.0.1" p).
    + now apply (replace_http_origin_nonempty p Hp).
    + contradiction.
  - destruct (Str.startsWith "/uploads/" p); [discriminate H|].
    destruct (Str.startsWith "uploads/" p); discriminate H.
Qed.

Lemma X20_empty_url_only_for_empty_path_witness :
  getImageUrl "http://localhost" <> "".
Proof.
  intro H. apply (X20_empty_url_only_for_empty_path "http://localhost") in H.
  discriminate H.
Defined.

(** X21. Resolving is idempotent on paths that carry no "http://" inside:
    an already resolved URL of this backend, an https URL, or a relative path
    resolved once, comes back unchanged when it is resolved again. *)
Theorem X21_getImageUrl_idempotent (p : string) :
  Str.includes "http://" p = false ->
  getImageUrl (getImageUrl p) = getImageUrl p.
Proof.
  intro H. destruct (String.eqb_spec p "") as [->|Hp]; [reflexivity|].
  assert (Hfix : forall q, q <> "" -> Str.startsWith "http" q = true ->
                           Str.includes "http://" q = false -> getImageUrl q = q).
  { intros q Hq Hh Hn. rewrite (getImageUrl_nonempty q Hq), Hh.
    destruct (Str.includes "localhost" q || Str.includes "127.0.0.1" q); [|reflexivity].
    now apply replace_http_origin_no_match. }
  destruct (no_http_origin_under_backend p H) as (N1 & N2 & N3).
  rewrite (getImageUrl_nonempty p Hp).
  destruct (Str.startsWith "http" p) eqn:Hh.
  - destruct (Str.includes "localhost" p || Str.includes "127.0.0.1" p).
    + rewrite (replace_http_origin_no_match _ p H). now apply Hfix.
    + now apply Hfix.
  - destruct (Str.startsWith "/uploads/" p); [|destruct (Str.startsWith "uploads/" p)];
      (apply Hfix; [discriminate | reflexivity | assumption]).
Qed.

Lemma X21_getImageUrl_idempotent_witness :
  Str.includes "http://" "localhost.png" = false
  /\ getImageUrl "localhost.png" = "https://dummy-bac.onrender.com/uploads/localhost.png"
  /\ getImageUrl (getImageUrl "localhost.png") = getImageUrl "localhost.png".
Proof.
  split; [reflexivity|]. split; [reflexivity|].
  apply (X21_getImageUrl_idempotent "localhost.png"). reflexivity.
Defined.

(** Without that condition resolving twice can differ from resolving once. *)
Example getImageUrl_not_idempotent :
  getImageUrl (getImageUrl "a/http://x/localhost") <> getImageUrl "a/http://x/localhost".
Proof. discriminate. Qed.
